(** * KiCad-INO library builder: the CSV-to-database pipeline and its descriptor

    A shallow embedding of [build_kicad_library.py].  The script has two
    phases: [update_database] turns every CSV file of a folder into an SQLite
    table and records the table's metadata, [generate_kicad_dbl] derives the
    [.kicad_dbl] descriptor from that metadata.

    Modelling choices.
    - A Python [str] is a sequence of Unicode code points: [list N].
    - The file system, the database engine and the case tables of the
      interpreter are the environment: what [os.listdir], the CSV reader,
      the SQL statements, the write of the descriptor and [str.title] on a
      non-ASCII string answer is part of the input ([World], [SourceFile]).
    - A call that can raise returns an [outcome]: a value, a process exit
      ([sys.exit]) or an exception that nobody caught.
    - A [dict] used as a map is a [gmap]. *)

From Stdlib Require Import NArith ZArith List Bool Ascii String Lia.
From stdpp Require Import base option list gmap.

Local Open Scope N_scope.

(** ** Strings *)

Abbreviation char := N (only parsing).
Abbreviation str := (list N) (only parsing).

(** A string literal of the source, as code points. *)
Definition lit (s : string) : str :=
  List.map N_of_ascii (list_ascii_of_string s).

Definition in_range (lo hi c : char) : bool := (lo <=? c) && (c <=? hi).

Definition is_upper (c : char) : bool := in_range 65 90 c.
Definition is_lower (c : char) : bool := in_range 97 122 c.
Definition is_alpha (c : char) : bool := is_upper c || is_lower c.

(** [c.isdigit()] for one character.  The script asks it of [clean[0]] only,
    a character that survived the strip to [[a-zA-Z0-9_]]; there the answer
    is "one of 0..9". *)
Definition isdigit (c : char) : bool := in_range 48 57 c.

(** [str.lower] and [str.upper], character by character, on the ASCII
    letters.  The script lowers a string only to compare it with an ASCII
    word without [k] ([.csv], [symbol], [footprint], [value], [rating],
    [mpn], [lcsc], [mfg]); no character outside ASCII lowers to a letter of
    these words, so the comparisons come out as with [str.lower]. *)
Definition lower_char (c : char) : char := if is_upper c then c + 32 else c.
Definition upper_char (c : char) : char := if is_lower c then c - 32 else c.
Definition lower (s : str) : str := List.map lower_char s.

(** [s == t] on strings. *)
Definition str_eqb (s t : str) : bool := bool_decide (s = t).

(** [s.replace(a, b)] for one-character [a]. *)
Definition replace_char (a : char) (b : str) (s : str) : str :=
  flat_map (fun c => if c =? a then b else [c]) s.

(** [s.title()] on an ASCII string: a letter is upper-cased when the
    character before it is not a letter, and lower-cased otherwise. *)
Fixpoint title_from (previous_is_cased : bool) (s : str) : str :=
  match s with
  | [] => []
  | c :: s' =>
      (if previous_is_cased then lower_char c else upper_char c)
        :: title_from (is_alpha c) s'
  end.
Definition title (s : str) : str := title_from false s.

(** [s.title()] on any string.  On a string with a character outside ASCII
    the result depends on the case tables of the interpreter, which are no
    part of the script: it is asked of the environment ([title_unicode]). *)
Definition is_ascii (s : str) : bool := forallb (fun c => c <? 128) s.

Definition str_title (title_unicode : str -> str) (s : str) : str :=
  if is_ascii s then title s else title_unicode s.

(** [needle in s] on strings: [needle] occurs as a contiguous run. *)
Fixpoint starts_with (prefix s : str) : bool :=
  match prefix, s with
  | [], _ => true
  | p :: prefix', c :: s' => (p =? c) && starts_with prefix' s'
  | _ :: _, [] => false
  end.
Fixpoint contains (needle s : str) : bool :=
  starts_with needle s ||
  match s with
  | [] => false
  | _ :: s' => contains needle s'
  end.

(** [s.endswith(suffix)]. *)
Definition endswith (suffix s : str) : bool :=
  starts_with (rev suffix) (rev s).

(** ** The name sanitizer *)

(** [re.sub(pattern, repl, s)] for a pattern that is one character class:
    every character of the class is a match, and is replaced by [repl]. *)
Definition re_sub_class (cls : char -> bool) (repl : str) (s : str) : str :=
  flat_map (fun c => if cls c then repl else [c]) s.

(** The class [[ -]]: a space or a hyphen. *)
Definition cls_space_hyphen (c : char) : bool := (c =? 32) || (c =? 45).

(** The class [[^a-zA-Z0-9_]]. *)
Definition cls_not_word (c : char) : bool :=
  negb (in_range 97 122 c || in_range 65 90 c || in_range 48 57 c || (c =? 95)).

Definition sanitize_sql_name (name : str) : str :=
  let clean := re_sub_class cls_space_hyphen (lit "_") name in
  let clean := re_sub_class cls_not_word (lit "") clean in
  match clean with
  | c :: _ => if isdigit c then lit "_" ++ clean else clean
  | [] => clean
  end.

(** The sanitizer as the specification words it, step by step, with the
    character set written out. *)
Module Spec.

Definition word_chars : str :=
  lit "ABCDEFGHIJKLMNOPQRSTUVWXYZabcdefghijklmnopqrstuvwxyz0123456789_".

Definition is_word_char (c : char) : bool := bool_decide (c ∈ word_chars).

Definition is_digit (c : char) : bool := bool_decide (c ∈ lit "0123456789").

Definition replace_space_hyphen (c : char) : char :=
  if bool_decide (c = 32 ∨ c = 45) then 95 else c.

Definition starts_with_digit (s : str) : bool :=
  match s with
  | c :: _ => is_digit c
  | [] => false
  end.

Definition sanitize (name : str) : str :=
  let replaced := List.map replace_space_hyphen name in
  let stripped := List.filter is_word_char replaced in
  if starts_with_digit stripped then 95 :: stripped else stripped.

End Spec.

(** ** Outcomes of a call *)

(** The exception classes that matter to the script.  In [sqlite3],
    [OperationalError], [IntegrityError] and [ProgrammingError] are sibling
    subclasses of [DatabaseError]: a handler for one does not catch the
    others.  [OSError] stands for the errors of the file system
    ([NotADirectoryError], [PermissionError], ...). *)
Inductive exception : Type :=
| OperationalError (msg : str)
| IntegrityError (msg : str)
| ProgrammingError (msg : str)
| IndexError (msg : str)
| OSError (msg : str).

(** A call returns, ends the process ([sys.exit(status)]), or lets an
    exception escape. *)
Inductive outcome (A : Type) : Type :=
| Returned (a : A)
| Exited (status : Z)
| Raised (e : exception).
Arguments Returned {A} a.
Arguments Exited {A} status.
Arguments Raised {A} e.

Definition bind {A B : Type} (m : outcome A) (k : A -> outcome B) : outcome B :=
  match m with
  | Returned a => k a
  | Exited status => Exited status
  | Raised e => Raised e
  end.

(** ** Configuration *)

Definition db_filename : str := lit "INO_componentsDB.db".
Definition dbl_filename : str := lit "INO_Components.kicad_dbl".

Definition SYSTEM_COLUMNS : list str :=
  [lit "part_id"; lit "symbol"; lit "footprint"].

Definition VISIBLE_COLUMNS : list str := [lit "value"; lit "rating"].

(** ** Helper functions *)

(** The script calls it on the columns of a table, which the table builder
    makes of the characters of [[a-zA-Z0-9_]]: the fallback is the ASCII
    [title]. *)
Definition get_column_display_name (col_name : str) : str :=
  if str_eqb (lower col_name) (lit "mpn") then lit "MPN"
  else if str_eqb (lower col_name) (lit "lcsc") then lit "LCSC"
  else if str_eqb (lower col_name) (lit "mfg") then lit "Manufacturer"
  else title (replace_char 95 (lit " ") col_name).

(** ** Phase 1: the table builder *)

(** What the script sends to the database for one file: the three statements
    and the rows bound to the [INSERT]. *)
Record SqlRequest : Type := {
  drop_stmt : str;
  create_stmt : str;
  insert_stmt : str;
  insert_rows : list (list str)
}.

(** One entry of the folder, with what the environment answers for it.
    - [content]: [None] when opening, decoding or parsing the file raises;
      otherwise the rows the CSV reader yields, header row first.
    - [sql]: what the database raises for the statements of this file, [None]
      when they all succeed and the commit goes through. *)
Record SourceFile : Type := {
  filename : str;
  content : option (list (list str));
  sql : SqlRequest -> option exception
}.

(** The environment of a run.
    - [folder_exists]: the answer of [os.path.exists(csv_folder)].
    - [listdir_error]: what [os.listdir(csv_folder)] raises, [None] when it
      returns the listing [listdir].
    - [connect]: what [sqlite3.connect] raises, [None] when it gives a
      connection.
    - [title_unicode]: [str.title] of the interpreter on a string with a
      character outside ASCII.
    - [dbl_write]: what opening [dbl_file] and [json.dump] raise, [None]
      when the descriptor is written. *)
Record World : Type := {
  folder_exists : bool;
  listdir_error : option exception;
  listdir : list SourceFile;
  connect : option exception;
  title_unicode : str -> str;
  dbl_write : option exception
}.

(** The metadata kept for a table that was created. *)
Record TableSpec : Type := {
  display_name : str;
  table_name : str;
  columns : list str
}.

(** [os.path.splitext(filename)[0]] for a name without path separators, as
    [os.listdir] gives them: cut at the last dot, unless only dots come
    before it. *)
Fixpoint last_dot (p : str) : option nat :=
  match p with
  | [] => None
  | c :: p' =>
      match last_dot p' with
      | Some i => Some (S i)
      | None => if c =? 46 then Some O else None
      end
  end.

Definition splitext_root (p : str) : str :=
  match last_dot p with
  | Some dotIndex =>
      if forallb (fun c => c =? 46) (take dotIndex p) then p
      else take dotIndex p
  | None => p
  end.

(** The body of the row loop: pad the row, or truncate it, to the headers. *)
Definition normalize_row (headers : list str) (row : list str) : list str :=
  let row :=
    if (length row <? length headers)%nat
    then row ++ repeat (lit "") (length headers - length row)
    else row in
  take (length headers) row.

(** The first [try] block: the sanitized headers and the rows to insert, or
    [None] when the file is left out ([continue]): the read raised, the file
    has no row at all, or its header row has no field. *)
Definition read_csv (f : SourceFile) : option (list str * list (list str)) :=
  match content f with
  | None => None
  | Some [] => None
  | Some (raw_headers :: reader) =>
      let headers := List.map sanitize_sql_name raw_headers in
      match headers with
      | [] => None
      | _ :: _ => Some (headers, List.map (normalize_row headers) reader)
      end
  end.

Fixpoint join (sep : str) (parts : list str) : str :=
  match parts with
  | [] => []
  | [x] => x
  | x :: parts' => x ++ sep ++ join sep parts'
  end.

Definition col_defs (headers : list str) : list str :=
  imap (fun i col =>
          if (i =? 0)%nat then col ++ lit " TEXT PRIMARY KEY"
          else col ++ lit " TEXT") headers.

Definition sql_request (table_name : str) (headers : list str)
    (rows_to_insert : list (list str)) : SqlRequest :=
  let placeholders := join (lit ", ") (repeat (lit "?") (length headers)) in
  {| drop_stmt := lit "DROP TABLE IF EXISTS " ++ table_name;
     create_stmt :=
       lit "CREATE TABLE " ++ table_name ++ lit " ("
         ++ join (lit ", ") (col_defs headers) ++ lit ")";
     insert_stmt :=
       lit "INSERT INTO " ++ table_name ++ lit " VALUES ("
         ++ placeholders ++ lit ")";
     insert_rows := rows_to_insert |}.

(** The body of the file loop.  [Returned None] is a file that adds nothing
    to [processed_tables]; [Returned (Some t)] is the [append]. *)
Definition load_file (w : World) (f : SourceFile)
    : outcome (option TableSpec) :=
  let raw_name := splitext_root (filename f) in
  let table_name := sanitize_sql_name raw_name in
  match read_csv f with
  | None => Returned None
  | Some (headers, rows_to_insert) =>
      match sql f (sql_request table_name headers rows_to_insert) with
      | None =>
          Returned
            (Some {| display_name :=
                       str_title (title_unicode w)
                         (replace_char 95 (lit " ") raw_name);
                     table_name := table_name;
                     columns := headers |})
      | Some (OperationalError e) =>
          if contains (lit "locked") e then Exited 1
          else Returned None
      | Some e => Raised e
      end
  end.

Fixpoint load_files (w : World) (csv_files : list SourceFile)
    (processed_tables : list TableSpec) : outcome (list TableSpec) :=
  match csv_files with
  | [] => Returned processed_tables
  | f :: csv_files' =>
      bind (load_file w f) (fun r =>
        match r with
        | Some t => load_files w csv_files' (processed_tables ++ [t])
        | None => load_files w csv_files' processed_tables
        end)
  end.

Definition update_database (w : World) : outcome (list TableSpec) :=
  if negb (folder_exists w) then Returned []
  else
    match listdir_error w with
    | Some e => Raised e
    | None =>
        let csv_files :=
          List.filter (fun f => endswith (lit ".csv") (lower (filename f)))
            (listdir w) in
        match csv_files with
        | [] => Returned []
        | _ :: _ =>
            match connect w with
            | Some e => Raised e
            | None => load_files w csv_files []
            end
        end
    end.

(** ** Phase 2: the descriptor generator *)

Record FieldEntry : Type := {
  column : str;
  name : str;
  visible_on_add : bool;
  visible_in_chooser : bool
}.

Record LibraryEntry : Type := {
  lib_name : str;
  table : str;
  key : str;
  symbols : str;
  footprints : str;
  fields : list FieldEntry;
  properties : gmap (list N) (list N)
}.

Record Source : Type := {
  type : str;
  dsn : str;
  username : str;
  password : str;
  timeout_seconds : Z;
  connection_string : str
}.

Record DescriptorDocument : Type := {
  meta_version : Z;
  doc_name : str;
  description : str;
  source : Source;
  libraries : list LibraryEntry
}.

(** [next((c for c in cols if c.lower() == what), None)]. *)
Definition find_column (what : str) (cols : list str) : option str :=
  List.find (fun c => str_eqb (lower c) what) cols.

(** [not x] for [x] a string or [None]. *)
Definition not_ (x : option str) : bool :=
  match x with
  | None => true
  | Some [] => true
  | Some (_ :: _) => false
  end.

(** The body of the column loop, on the pair ([fields], [properties]). *)
Definition add_column (st : list FieldEntry * gmap (list N) (list N))
    (col : str) : list FieldEntry * gmap (list N) (list N) :=
  let properties :=
    if str_eqb (lower col) (lit "value") then <[lit "Value" := col]> (snd st)
    else <[col := col]> (snd st) in
  let fields :=
    if negb (bool_decide (col ∈ SYSTEM_COLUMNS)) then
      let is_visible :=
        bool_decide (lower col ∈ List.map lower VISIBLE_COLUMNS) in
      let field_entry :=
        {| column := col;
           name := get_column_display_name col;
           visible_on_add := is_visible;
           visible_in_chooser := true |} in
      fst st ++ [field_entry]
    else fst st in
  (fields, properties).

(** The body of the table loop: the entry appended for [t], [None] when the
    table is skipped with a warning. *)
Definition library_entry (t : TableSpec) : outcome (option LibraryEntry) :=
  let cols := columns t in
  match cols with
  | [] => Raised (IndexError (lit "list index out of range"))
  | key_col :: _ =>
      let sym_col := find_column (lit "symbol") cols in
      let fp_col := find_column (lit "footprint") cols in
      if not_ sym_col || not_ fp_col then Returned None
      else
        let st := fold_left add_column cols ([], ∅) in
        Returned (Some {| lib_name := display_name t;
                          table := table_name t;
                          key := key_col;
                          symbols := default [] sym_col;
                          footprints := default [] fp_col;
                          fields := fst st;
                          properties := snd st |})
  end.

Fixpoint library_entries (tables_data : list TableSpec)
    (libs : list LibraryEntry) : outcome (list LibraryEntry) :=
  match tables_data with
  | [] => Returned libs
  | t :: tables_data' =>
      bind (library_entry t) (fun r =>
        match r with
        | Some lib_entry => library_entries tables_data' (libs ++ [lib_entry])
        | None => library_entries tables_data' libs
        end)
  end.

(** What a call of [generate_kicad_dbl] leaves behind: the document it
    built ([dbl_data]) and whether [dbl_file] holds it. *)
Record Generated : Type := {
  document : DescriptorDocument;
  written : bool
}.

(** [write] is what the last [try] block raises, [None] when the document
    is written; an exception there is logged and not raised again. *)
Definition generate_kicad_dbl (write : option exception)
    (tables_data : list TableSpec) : outcome Generated :=
  bind (library_entries tables_data []) (fun libs =>
    let dbl_data :=
      {| meta_version := 0;
         doc_name := lit "INO Master Library";
         description := lit "Auto-generated Global Component Database";
         source :=
           {| type := lit "odbc";
              dsn := lit "";
              username := lit "";
              password := lit "";
              timeout_seconds := 2;
              connection_string :=
                lit "Driver={SQLite3 ODBC Driver};Database=${CWD}/"
                  ++ db_filename ++ lit ";" |};
         libraries := libs |} in
    match write with
    | None => Returned {| document := dbl_data; written := true |}
    | Some _ => Returned {| document := dbl_data; written := false |}
    end).

(** ** The script *)

(** The result is the descriptor that the run has written, if any. *)
Definition main (w : World) : outcome (option DescriptorDocument) :=
  bind (update_database w) (fun tables_found =>
    match tables_found with
    | [] => Returned None
    | _ :: _ =>
        bind (generate_kicad_dbl (dbl_write w) tables_found) (fun g =>
          Returned (if written g then Some (document g) else None))
    end).

(** ** Vocabulary of the statements *)

(** Two names are equal when case is ignored. *)
Definition eq_nocase (a b : str) : Prop := lower a = lower b.

(** The column list has a column equal to [what] when case is ignored. *)
Definition has_column (what : str) (cols : list str) : Prop :=
  exists c, c ∈ cols /\ eq_nocase c what.

#[global] Instance eq_nocase_dec (a b : str) : Decision (eq_nocase a b).
Proof. unfold eq_nocase. apply _. Defined.

(** The columns that read "value" when case is ignored, in header order. *)
Definition value_columns (cols : list str) : list str :=
  List.filter (fun c => bool_decide (eq_nocase c (lit "value"))) cols.

(** The entry the table loop builds for a table it does not skip. *)
Definition entry_of (t : TableSpec) : LibraryEntry :=
  let st := fold_left add_column (columns t) ([], ∅) in
  {| lib_name := display_name t;
     table := table_name t;
     key := default [] (head (columns t));
     symbols := default [] (find_column (lit "symbol") (columns t));
     footprints := default [] (find_column (lit "footprint") (columns t));
     fields := fst st;
     properties := snd st |}.

(** The field the column loop appends for a column. *)
Definition field_entry (col : str) : FieldEntry :=
  {| column := col;
     name := get_column_display_name col;
     visible_on_add := bool_decide (lower col ∈ List.map lower VISIBLE_COLUMNS);
     visible_in_chooser := true |}.

(** The key under which the column loop files a column. *)
Definition property_key (col : str) : str :=
  if str_eqb (lower col) (lit "value") then lit "Value" else col.

(** One step of the column loop on the properties alone. *)
Definition file_property (m : gmap (list N) (list N)) (col : str)
    : gmap (list N) (list N) :=
  <[property_key col := col]> m.

(** The test [col not in SYSTEM_COLUMNS]. *)
Definition not_system (col : str) : bool :=
  negb (bool_decide (col ∈ SYSTEM_COLUMNS)).

(** The properties mapping of a table as claim C4 words it: every column
    maps to itself, except that every column equal to "value" when case is
    ignored is filed under "Value" and not under its own name, and "Value"
    is a key exactly when there is such a column. *)
Definition properties_as_claimed (cols : list str)
    (props : gmap (list N) (list N)) : Prop :=
  (forall c, c ∈ cols -> ~ eq_nocase c (lit "value") -> props !! c = Some c)
  /\ (forall c, c ∈ cols -> eq_nocase c (lit "value") ->
        props !! lit "Value" = Some c
        /\ (c <> lit "Value" -> props !! c = None))
  /\ (is_Some (props !! lit "Value") <-> has_column (lit "value") cols).

(** The table builder as claim C7 words it: a name that sanitizes to the
    empty string is never used, neither for a column nor for a table. *)
Definition skips_empty_names (w : World) : Prop :=
  forall tables t,
    update_database w = Returned tables -> t ∈ tables ->
    table_name t <> lit "" /\ lit "" ∉ columns t.

(** The write of the descriptor raised nothing. *)
Definition goes_through (write : option exception) : bool :=
  match write with
  | None => true
  | Some _ => false
  end.

(** SQLite on a file whose table name is empty: [DROP TABLE IF EXISTS] with
    no name after it is a syntax error, which [sqlite3] raises as an
    [OperationalError] ("incomplete input"), and not as a lock. *)
Definition refuses_unnamed_table (f : SourceFile) : Prop :=
  forall q,
    drop_stmt q = lit "DROP TABLE IF EXISTS " ->
    exists msg,
      sql f q = Some (OperationalError msg)
      /\ contains (lit "locked") msg = false.

(** The table the file loop appends for a file that goes through. *)
Definition table_of (w : World) (f : SourceFile) (raw_headers : list str)
    : TableSpec :=
  let raw_name := splitext_root (filename f) in
  {| display_name :=
       str_title (title_unicode w) (replace_char 95 (lit " ") raw_name);
     table_name := sanitize_sql_name raw_name;
     columns := List.map sanitize_sql_name raw_headers |}.

(** The request the file loop sends for a file that was read. *)
Definition request_of (f : SourceFile) (raw_headers : list str)
    (reader : list (list str)) : SqlRequest :=
  let headers := List.map sanitize_sql_name raw_headers in
  sql_request (sanitize_sql_name (splitext_root (filename f))) headers
    (List.map (normalize_row headers) reader).

(** ** Environments and inputs of the examples *)

(** The examples hold ASCII file names only, for which the case tables are
    not asked. *)
Definition ascii_runtime : str -> str := fun s => s.

(** A database that refuses a statement without a table name and accepts
    everything else. *)
Definition refuse_unnamed : SqlRequest -> option exception :=
  fun q =>
    if bool_decide (drop_stmt q = lit "DROP TABLE IF EXISTS ")
    then Some (OperationalError (lit "incomplete input"))
    else None.

(** A database that accepts everything. *)
Definition accept_all : SqlRequest -> option exception := fun _ => None.

(** A database that enforces the primary key of the first column, and
    nothing else: two rows with the same first field are refused with an
    [IntegrityError]. *)
Definition enforce_primary_key : SqlRequest -> option exception :=
  fun q =>
    if bool_decide (NoDup (List.map (fun row => head row) (insert_rows q)))
    then None
    else Some (IntegrityError (lit "UNIQUE constraint failed")).

(** A database file that another process holds open. *)
Definition database_locked : SqlRequest -> option exception :=
  fun _ => Some (OperationalError (lit "database is locked")).

Definition capacitors_csv : SourceFile :=
  {| filename := lit "Capacitors.csv";
     content :=
       Some [[lit "part_id"; lit "symbol"; lit "footprint"; lit "value"; lit "mfg"];
             [lit "C1"; lit "Device:C"; lit "C_0402"; lit "100n"; lit "Murata"];
             [lit "C2"; lit "Device:C"];
             [lit "C3"; lit "Device:C"; lit "C_0603"; lit "1u"; lit "TDK"; lit "x"]];
     sql := accept_all |}.

Definition capacitors_world : World :=
  {| folder_exists := true;
     listdir_error := None;
     listdir := [capacitors_csv];
     connect := None;
     title_unicode := ascii_runtime;
     dbl_write := None |}.

Definition capacitors_spec : TableSpec :=
  {| display_name := lit "Capacitors";
     table_name := lit "Capacitors";
     columns :=
       [lit "part_id"; lit "symbol"; lit "footprint"; lit "value"; lit "mfg"] |}.

(** A header that names its link columns with capitals and its key [id]. *)
Definition resistors_csv : SourceFile :=
  {| filename := lit "Resistors.csv";
     content :=
       Some [[lit "id"; lit "Symbol"; lit "Footprint"; lit "value"];
             [lit "R1"; lit "Device:R"; lit "R_0402"; lit "10k"]];
     sql := accept_all |}.

Definition resistors_world : World :=
  {| folder_exists := true;
     listdir_error := None;
     listdir := [resistors_csv];
     connect := None;
     title_unicode := ascii_runtime;
     dbl_write := None |}.

(** A file without a footprint column, next to one that has both. *)
Definition hardware_csv : SourceFile :=
  {| filename := lit "Hardware.csv";
     content :=
       Some [[lit "part_id"; lit "Symbol"; lit "value"];
             [lit "H1"; lit "Mechanical:MountingHole"; lit "M3"]];
     sql := accept_all |}.

Definition hardware_spec : TableSpec :=
  {| display_name := lit "Hardware";
     table_name := lit "Hardware";
     columns := [lit "part_id"; lit "Symbol"; lit "value"] |}.

Definition mixed_world : World :=
  {| folder_exists := true;
     listdir_error := None;
     listdir := [hardware_csv; capacitors_csv];
     connect := None;
     title_unicode := ascii_runtime;
     dbl_write := None |}.

(** A table with two columns for the symbol and two for the footprint. *)
Definition twice_linked_spec : TableSpec :=
  {| display_name := lit "Connectors";
     table_name := lit "Connectors";
     columns :=
       [lit "part_id"; lit "Symbol"; lit "symbol"; lit "FootPrint";
        lit "footprint"] |}.

(** A table with two columns that read "value" when case is ignored. *)
Definition two_values_spec : TableSpec :=
  {| display_name := lit "Parts";
     table_name := lit "Parts";
     columns :=
       [lit "part_id"; lit "value"; lit "VALUE"; lit "symbol"; lit "footprint"] |}.

(** A header with a name made of punctuation only. *)
Definition diodes_csv : SourceFile :=
  {| filename := lit "Diodes.csv";
     content :=
       Some [[lit "part_id"; lit "???"; lit "symbol"; lit "footprint"];
             [lit "D1"; lit "x"; lit "Device:D"; lit "D_SOD123"]];
     sql := accept_all |}.

Definition diodes_world : World :=
  {| folder_exists := true;
     listdir_error := None;
     listdir := [diodes_csv];
     connect := None;
     title_unicode := ascii_runtime;
     dbl_write := None |}.

Definition diodes_spec : TableSpec :=
  {| display_name := lit "Diodes";
     table_name := lit "Diodes";
     columns := [lit "part_id"; lit ""; lit "symbol"; lit "footprint"] |}.


(** The folder of [mixed_world] when the descriptor cannot be written. *)
Definition read_only_world : World :=
  {| folder_exists := true;
     listdir_error := None;
     listdir := [hardware_csv; capacitors_csv];
     connect := None;
     title_unicode := ascii_runtime;
     dbl_write := Some (OSError (lit "Permission denied")) |}.

(** A file name with a letter outside ASCII, [résistances_cms.csv], and the
    case tables for its stem. *)
Definition resistances_csv : SourceFile :=
  {| filename := lit "r" ++ 233 :: lit "sistances_cms.csv";
     content :=
       Some [[lit "part_id"; lit "symbol"; lit "footprint"];
             [lit "R1"; lit "Device:R"; lit "R_0402"]];
     sql := accept_all |}.

Definition resistances_world : World :=
  {| folder_exists := true;
     listdir_error := None;
     listdir := [resistances_csv];
     connect := None;
     title_unicode :=
       (fun s =>
          if bool_decide (s = lit "r" ++ 233 :: lit "sistances cms")
          then lit "R" ++ 233 :: lit "sistances Cms" else s);
     dbl_write := None |}.

(** A file whose stem is made of punctuation only. *)
Definition unnamed_csv : SourceFile :=
  {| filename := lit "???.csv";
     content :=
       Some [[lit "part_id"; lit "symbol"; lit "footprint"];
             [lit "U1"; lit "Device:U"; lit "SOIC-8"]];
     sql := refuse_unnamed |}.

Definition unnamed_world : World :=
  {| folder_exists := true;
     listdir_error := None;
     listdir := [unnamed_csv; capacitors_csv];
     connect := None;
     title_unicode := ascii_runtime;
     dbl_write := None |}.

(** A file with the same part number on two rows, followed by a sound
    file. *)
Definition duplicates_csv : SourceFile :=
  {| filename := lit "Inductors.csv";
     content :=
       Some [[lit "part_id"; lit "symbol"; lit "footprint"];
             [lit "L1"; lit "Device:L"; lit "L_0603"];
             [lit "L1"; lit "Device:L"; lit "L_0805"]];
     sql := enforce_primary_key |}.

Definition sound_csv : SourceFile :=
  {| filename := lit "Capacitors.csv";
     content := content capacitors_csv;
     sql := enforce_primary_key |}.

Definition duplicates_world : World :=
  {| folder_exists := true;
     listdir_error := None;
     listdir := [duplicates_csv; sound_csv];
     connect := None;
     title_unicode := ascii_runtime;
     dbl_write := None |}.

Definition sound_world : World :=
  {| folder_exists := true;
     listdir_error := None;
     listdir := [sound_csv];
     connect := None;
     title_unicode := ascii_runtime;
     dbl_write := None |}.

(** A file that meets a locked database, followed by one that would not. *)
Definition locked_csv : SourceFile :=
  {| filename := lit "Connectors.csv";
     content := content capacitors_csv;
     sql := database_locked |}.

Definition locked_world : World :=
  {| folder_exists := true;
     listdir_error := None;
     listdir := [locked_csv; capacitors_csv];
     connect := None;
     title_unicode := ascii_runtime;
     dbl_write := None |}.

(** ** Vocabulary of the further properties *)

(** The characters that leave a trace in a sanitized name: the space and the
    hyphen, which become underscores, and the characters of [[a-zA-Z0-9_]]. *)
Definition kept (c : char) : bool := cls_space_hyphen c || negb (cls_not_word c).

(** The test of the file filter, [f.lower().endswith('.csv')]. *)
Definition is_csv (f : SourceFile) : bool :=
  endswith (lit ".csv") (lower (filename f)).

(** The characters of the SQL text around the identifiers. *)
Definition sql_punctuation : str := lit " (),?".

(** The number of [?] in a statement. *)
Definition placeholders (stmt : str) : nat := count_occ N.eq_dec stmt 63.

(** The labels of the three overrides of [get_column_display_name]. *)
Definition override_labels : list str :=
  [lit "MPN"; lit "LCSC"; lit "Manufacturer"].

(** The characters a statement sent to the database is made of. *)
Definition sql_chars : str := Spec.word_chars ++ sql_punctuation.

(** A file of the folder that is not a CSV file, unreadable and with a
    database that would be locked. *)
Definition notes_txt : SourceFile :=
  {| filename := lit "notes.txt";
     content := None;
     sql := database_locked |}.

(** A folder without a CSV file, and a database that cannot be opened. *)
Definition no_csv_world : World :=
  {| folder_exists := true;
     listdir_error := None;
     listdir := [notes_txt];
     connect := Some (OperationalError (lit "unable to open database file"));
     title_unicode := ascii_runtime;
     dbl_write := None |}.

(** The file met an [OperationalError] whose message holds "locked". *)
Definition meets_lock (f : SourceFile) : Prop :=
  exists raw_headers reader msg,
    content f = Some (raw_headers :: reader)
    /\ raw_headers <> []
    /\ sql f (request_of f raw_headers reader) = Some (OperationalError msg)
    /\ contains (lit "locked") msg = true.


(** The file loop went through the file: it was left out or recorded. *)
Definition passes (w : World) (f : SourceFile) : Prop :=
  exists r, load_file w f = Returned r.

(** What [cols[0]] raises on a table without columns. *)
Definition index_error : exception := IndexError (lit "list index out of range").

(** A table without columns, which the table builder never hands over. *)
Definition no_columns_spec : TableSpec :=
  {| display_name := lit "Empty"; table_name := lit "Empty"; columns := [] |}.

(** A name as the sanitizer gives them: made of the characters of
    [A-Za-z0-9_] and not starting with a digit; it may be empty. *)
Definition sanitized (s : str) : Prop :=
  Forall (fun c => c ∈ Spec.word_chars) s /\ Spec.starts_with_digit s = false.

(** ** Facts about characters *)

(** A property of characters that holds below 128 by enumeration. *)
Lemma forall_below_128 (P : char -> bool) :
  forallb P (List.map N.of_nat (seq 0 128)) = true ->
  forall c, c < 128 -> P c = true.
Proof.
  intros H c Hc.
  rewrite forallb_forall in H. apply H.
  apply in_map_iff. exists (N.to_nat c). split; [lia|].
  apply in_seq. lia.
Qed.

Lemma cls_not_word_spec c : cls_not_word c = negb (Spec.is_word_char c).
Proof.
  destruct (N.ltb_spec c 128) as [Hc|Hc].
  - apply eqb_prop.
    apply (forall_below_128
             (fun c => Bool.eqb (cls_not_word c) (negb (Spec.is_word_char c))));
      [vm_compute; reflexivity | exact Hc].
  - assert (Spec.is_word_char c = false) as ->.
    { apply bool_decide_eq_false. intros Hin.
      apply list_elem_of_In in Hin. vm_compute in Hin.
      repeat (destruct Hin as [Hin|Hin]; [lia|]). exact Hin. }
    unfold cls_not_word, in_range.
    repeat match goal with
           | |- context [?a <=? ?b] => destruct (N.leb_spec a b)
           | |- context [?a =? ?b] => destruct (N.eqb_spec a b)
           end; simpl; try reflexivity; lia.
Qed.

Lemma isdigit_spec c : isdigit c = Spec.is_digit c.
Proof.
  destruct (N.ltb_spec c 128) as [Hc|Hc].
  - apply eqb_prop.
    apply (forall_below_128 (fun c => Bool.eqb (isdigit c) (Spec.is_digit c)));
      [vm_compute; reflexivity | exact Hc].
  - assert (Spec.is_digit c = false) as ->.
    { apply bool_decide_eq_false. intros Hin.
      apply list_elem_of_In in Hin. vm_compute in Hin.
      repeat (destruct Hin as [Hin|Hin]; [lia|]). exact Hin. }
    unfold isdigit, in_range.
    destruct (N.leb_spec c 57); [lia|]. apply andb_false_r.
Qed.

Lemma cls_space_hyphen_spec c :
  cls_space_hyphen c = bool_decide (c = 32 ∨ c = 45).
Proof.
  unfold cls_space_hyphen.
  destruct (N.eqb_spec c 32), (N.eqb_spec c 45); simpl; symmetry;
    (apply bool_decide_eq_true; tauto) || (apply bool_decide_eq_false; tauto).
Qed.

(** ** The two substitutions, as a map and a filter *)

Lemma flat_map_singleton {A B : Type} (f : A -> B) (l : list A) :
  flat_map (fun x => [f x]) l = List.map f l.
Proof. induction l as [|x l IH]; [reflexivity|]. cbn. rewrite IH. reflexivity. Qed.

Lemma re_sub_space_hyphen name :
  re_sub_class cls_space_hyphen (lit "_") name
  = List.map Spec.replace_space_hyphen name.
Proof.
  unfold re_sub_class. rewrite <- flat_map_singleton.
  apply flat_map_ext. intros c.
  unfold Spec.replace_space_hyphen. rewrite cls_space_hyphen_spec.
  destruct (bool_decide (c = 32 ∨ c = 45)); reflexivity.
Qed.

Lemma re_sub_not_word s :
  re_sub_class cls_not_word (lit "") s = List.filter Spec.is_word_char s.
Proof.
  induction s as [|c s IH]; [reflexivity|].
  cbn [re_sub_class flat_map List.filter]. fold (re_sub_class cls_not_word (lit "") s).
  rewrite IH, cls_not_word_spec. destruct (Spec.is_word_char c); reflexivity.
Qed.

Lemma sanitize_sql_name_unfold name :
  sanitize_sql_name name = Spec.sanitize name.
Proof.
  unfold sanitize_sql_name, Spec.sanitize.
  rewrite re_sub_space_hyphen, re_sub_not_word.
  destruct (List.filter _ _) as [|c clean]; [reflexivity|].
  cbn [Spec.starts_with_digit]. rewrite isdigit_spec.
  destruct (Spec.is_digit c); reflexivity.
Qed.

(** ** What a sanitized name looks like *)

Lemma word_char_not_space_hyphen c :
  Spec.is_word_char c = true -> Spec.replace_space_hyphen c = c.
Proof.
  intros Hc. unfold Spec.replace_space_hyphen.
  destruct (bool_decide_reflect (c = 32 ∨ c = 45)) as [[->| ->]|]; [| |reflexivity];
    vm_compute in Hc; discriminate.
Qed.

Lemma underscore_word_char : Spec.is_word_char 95 = true.
Proof. reflexivity. Qed.

Lemma underscore_not_digit : Spec.is_digit 95 = false.
Proof. reflexivity. Qed.

Lemma sanitize_word_chars name :
  Forall (fun c => Spec.is_word_char c = true) (Spec.sanitize name).
Proof.
  unfold Spec.sanitize.
  set (stripped := List.filter _ _).
  assert (Forall (fun c => Spec.is_word_char c = true) stripped) as Hs.
  { apply List.Forall_forall. intros c Hc. apply filter_In in Hc. tauto. }
  destruct (Spec.starts_with_digit stripped); [constructor|]; auto using underscore_word_char.
Qed.

Lemma sanitize_no_leading_digit name :
  Spec.starts_with_digit (Spec.sanitize name) = false.
Proof.
  unfold Spec.sanitize.
  set (stripped := List.filter _ _).
  destruct (Spec.starts_with_digit stripped) eqn:Hd; [|exact Hd].
  exact underscore_not_digit.
Qed.

(** A name made of word characters that does not start with a digit is left
    as it is. *)
Lemma sanitize_fixpoint s :
  Forall (fun c => Spec.is_word_char c = true) s ->
  Spec.starts_with_digit s = false ->
  Spec.sanitize s = s.
Proof.
  intros Hw Hd. unfold Spec.sanitize.
  assert (List.map Spec.replace_space_hyphen s = s) as ->.
  { clear Hd. induction Hw as [|c s Hc _ IH]; [reflexivity|].
    cbn [List.map]. rewrite IH, word_char_not_space_hyphen; [reflexivity|exact Hc]. }
  assert (List.filter Spec.is_word_char s = s) as ->.
  { clear Hd. induction Hw as [|c s Hc _ IH]; [reflexivity|].
    cbn [List.filter]. rewrite Hc, IH. reflexivity. }
  rewrite Hd. reflexivity.
Qed.

(** C1. For every input string, [sanitize_sql_name] returns what the three
    steps of the specification give: the space and the hyphen, and no other
    character, replaced by an underscore ([Spec.replace_space_hyphen]); then
    every character outside the 63 characters of [A-Za-z0-9_] removed; then
    an underscore put in front when the result starts with a digit. *)
Theorem sanitize_sql_name_refines_spec :
  forall name : str,
    sanitize_sql_name name
    = (let replaced := List.map Spec.replace_space_hyphen name in
       let stripped := List.filter Spec.is_word_char replaced in
       if Spec.starts_with_digit stripped then 95 :: stripped else stripped).
Proof.
  intros name. unfold sanitize_sql_name.
  rewrite re_sub_space_hyphen, re_sub_not_word. cbv zeta.
  destruct (List.filter Spec.is_word_char _) as [|c clean]; [reflexivity|].
  cbn [Spec.starts_with_digit]. rewrite isdigit_spec.
  destruct (Spec.is_digit c); reflexivity.
Qed.

(** C5. The sanitizer is idempotent: sanitizing a sanitized name gives it
    back. *)
Theorem sanitize_sql_name_idempotent :
  forall x : str,
    sanitize_sql_name (sanitize_sql_name x) = sanitize_sql_name x.
Proof.
  intros x. rewrite !sanitize_sql_name_unfold.
  apply sanitize_fixpoint.
  - apply sanitize_word_chars.
  - apply sanitize_no_leading_digit.
Qed.

(** C9. The output of the sanitizer never starts with a digit and holds only
    characters of [A-Za-z0-9_]. *)
Theorem sanitize_sql_name_output :
  forall name : str,
    Spec.starts_with_digit (sanitize_sql_name name) = false
    /\ Forall (fun c => c ∈ Spec.word_chars) (sanitize_sql_name name).
Proof.
  intros name. rewrite sanitize_sql_name_unfold. split.
  - apply sanitize_no_leading_digit.
  - eapply Forall_impl; [apply sanitize_word_chars|].
    intros c Hc. cbv beta in Hc. apply bool_decide_eq_true in Hc. exact Hc.
Qed.

(** ** Row normalization *)

(** C6. For every row and every header list, the normalized row is as long
    as the header list: it is the fields of the row up to that length, in
    their order, followed by as many empty strings as the row falls short.
    A shorter row is so padded on the right, a longer one truncated. *)
Theorem normalize_row_pads_or_truncates :
  forall (headers row : list str),
    length (normalize_row headers row) = length headers
    /\ normalize_row headers row
       = take (length headers) row
           ++ repeat (lit "") (length headers - length row).
Proof.
  intros headers row. unfold normalize_row.
  destruct (Nat.ltb_spec (length row) (length headers)) as [Hlt|Hge].
  - assert (length (row ++ repeat (lit "") (length headers - length row))
            = length headers) as Hlen.
    { rewrite length_app, repeat_length. lia. }
    rewrite (take_ge (row ++ _)) by lia.
    rewrite (take_ge row) by lia.
    split; [exact Hlen | reflexivity].
  - replace (length headers - length row)%nat with 0%nat by lia.
    cbn [repeat]. rewrite app_nil_r. split; [|reflexivity].
    rewrite length_take. lia.
Qed.

(** ** The table builder: which files are recorded *)

Lemma read_csv_Some f headers rows :
  read_csv f = Some (headers, rows) <->
  exists raw_headers reader,
    content f = Some (raw_headers :: reader)
    /\ raw_headers <> []
    /\ headers = List.map sanitize_sql_name raw_headers
    /\ rows = List.map (normalize_row headers) reader.
Proof.
  unfold read_csv. split.
  - destruct (content f) as [[|raw_headers reader]|]; try discriminate.
    destruct raw_headers as [|h raw_headers]; [discriminate|].
    cbn [List.map]. intros [= <- <-].
    exists (h :: raw_headers), reader. repeat split. discriminate.
  - intros (raw_headers & reader & -> & Hne & -> & ->).
    destruct raw_headers as [|h raw_headers]; [congruence|]. reflexivity.
Qed.

(** C7, the claim as worded fails: the header name [???] sanitizes to the
    empty string, the [CREATE TABLE] statement is written with the empty
    string as the name of the second column, and the table is recorded with
    that column. *)
Lemma empty_column_name_is_recorded :
  sanitize_sql_name (lit "???") = lit ""
  /\ create_stmt
       (request_of diodes_csv
          [lit "part_id"; lit "???"; lit "symbol"; lit "footprint"]
          [[lit "D1"; lit "x"; lit "Device:D"; lit "D_SOD123"]])
     = lit "CREATE TABLE Diodes (part_id TEXT PRIMARY KEY,  TEXT, symbol TEXT, footprint TEXT)"
  /\ update_database diodes_world = Returned [diodes_spec]
  /\ ~ skips_empty_names diodes_world.
Proof.
  split; [reflexivity|]. split; [vm_compute; reflexivity|].
  split; [vm_compute; reflexivity|].
  intros Hskip.
  destruct (Hskip [diodes_spec] diodes_spec) as [_ Hcols].
  - vm_compute; reflexivity.
  - apply list_elem_of_here.
  - apply Hcols. apply list_elem_of_In. vm_compute. tauto.
Qed.

(** What is known of a table that the file loop appends. *)
Lemma load_file_appends w f t :
  load_file w f = Returned (Some t) ->
  exists raw_headers reader,
    content f = Some (raw_headers :: reader)
    /\ raw_headers <> []
    /\ sql f (request_of f raw_headers reader) = None
    /\ t = table_of w f raw_headers.
Proof.
  unfold load_file.
  destruct (read_csv f) as [[headers rows]|] eqn:Hread; [|discriminate].
  apply read_csv_Some in Hread as (raw_headers & reader & Hc & Hne & -> & ->).
  fold (request_of f raw_headers reader).
  destruct (sql f (request_of f raw_headers reader)) as [[msg|msg|msg|msg|msg]|] eqn:Hsql;
    try discriminate.
  - destruct (contains _ _); discriminate.
  - intros [= <-]. exists raw_headers, reader. repeat split; assumption.
Qed.

(** ** The table builder: database errors *)

(** What the handler of the SQL block does with an exception: an
    [OperationalError] whose message holds "locked" ends the process with
    status 1, any other [OperationalError] leaves the file out, and an
    exception of another class is not caught. *)
Lemma load_file_sql_error w f raw_headers reader e :
  content f = Some (raw_headers :: reader) ->
  raw_headers <> [] ->
  sql f (request_of f raw_headers reader) = Some e ->
  load_file w f
  = match e with
    | OperationalError msg =>
        if contains (lit "locked") msg then Exited 1 else Returned None
    | _ => Raised e
    end.
Proof.
  intros Hc Hne Hsql. unfold load_file.
  assert (read_csv f
          = Some (List.map sanitize_sql_name raw_headers,
                  List.map (normalize_row (List.map sanitize_sql_name raw_headers))
                    reader)) as ->.
  { apply read_csv_Some. exists raw_headers, reader. repeat split; assumption. }
  fold (request_of f raw_headers reader). rewrite Hsql.
  destruct e; reflexivity.
Qed.

(** C7, amended. A file whose stem sanitizes to the empty string gets no
    table: the database refuses the statements without a table name, and
    the file is left out while the loop goes on.  A header name that
    sanitizes to the empty string is not left out: in a table that is
    recorded every header has its column, at its position, named by the
    sanitized header, the empty string included. *)
Theorem empty_names_in_load_file :
  forall (w : World) (f : SourceFile),
    (sanitize_sql_name (splitext_root (filename f)) = lit "" ->
     refuses_unnamed_table f ->
     load_file w f = Returned None)
    /\ (forall t,
          load_file w f = Returned (Some t) ->
          exists raw_headers reader,
            content f = Some (raw_headers :: reader)
            /\ raw_headers <> []
            /\ length (columns t) = length raw_headers
            /\ forall i h,
                 raw_headers !! i = Some h ->
                 columns t !! i = Some (sanitize_sql_name h)).
Proof.
  intros w f. split.
  - intros Hname Hdb. unfold load_file.
    destruct (read_csv f) as [[headers rows]|] eqn:Hread; [|reflexivity].
    rewrite Hname.
    destruct (Hdb (sql_request (lit "") headers rows)) as (msg & -> & ->);
      reflexivity.
  - intros t Ht.
    apply load_file_appends in Ht as (raw_headers & reader & Hc & Hne & _ & ->).
    exists raw_headers, reader. split; [exact Hc|]. split; [exact Hne|].
    cbn [table_of columns]. split; [apply length_map|].
    intros i h Hi. rewrite list_lookup_fmap, Hi. reflexivity.
Qed.

Lemma empty_names_in_load_file_witness :
  sanitize_sql_name (splitext_root (filename unnamed_csv)) = lit ""
  /\ refuses_unnamed_table unnamed_csv
  /\ load_file unnamed_world unnamed_csv = Returned None
  /\ update_database unnamed_world = Returned [capacitors_spec]
  /\ load_file diodes_world diodes_csv = Returned (Some diodes_spec)
  /\ exists raw_headers reader,
       content diodes_csv = Some (raw_headers :: reader)
       /\ raw_headers <> []
       /\ length (columns diodes_spec) = length raw_headers
       /\ forall i h,
            raw_headers !! i = Some h ->
            columns diodes_spec !! i = Some (sanitize_sql_name h).
Proof.
  assert (refuses_unnamed_table unnamed_csv) as Hdb.
  { intros q Hq. exists (lit "incomplete input"). split; [|reflexivity].
    cbn [unnamed_csv sql]. unfold refuse_unnamed.
    rewrite (bool_decide_eq_true_2 _ Hq). reflexivity. }
  split; [reflexivity|]. split; [exact Hdb|].
  split.
  { apply (proj1 (empty_names_in_load_file unnamed_world unnamed_csv));
      [reflexivity | exact Hdb]. }
  split; [vm_compute; reflexivity|].
  split; [vm_compute; reflexivity|].
  apply (proj2 (empty_names_in_load_file diodes_world diodes_csv) diodes_spec).
  vm_compute; reflexivity.
Defined.

(** A stem with a letter outside ASCII: the display name is the one of the
    case tables, and the letter is dropped from the table name. *)
Example accented_stem_display_name :
  update_database resistances_world
  = Returned
      [{| display_name := lit "R" ++ 233 :: lit "sistances Cms";
          table_name := lit "rsistances_cms";
          columns := [lit "part_id"; lit "symbol"; lit "footprint"] |}].
Proof. vm_compute; reflexivity. Qed.

(** The files after the one that ends the process are not looked at, and
    the files after one that is left out are. *)
Lemma load_files_exit w f csv_files processed_tables status :
  load_file w f = Exited status ->
  load_files w (f :: csv_files) processed_tables = Exited status.
Proof. intros Hf. cbn [load_files]. rewrite Hf. reflexivity. Qed.

Lemma load_files_skip w f csv_files processed_tables :
  load_file w f = Returned None ->
  load_files w (f :: csv_files) processed_tables
  = load_files w csv_files processed_tables.
Proof. intros Hf. cbn [load_files]. rewrite Hf. reflexivity. Qed.

Lemma load_files_raise w f csv_files processed_tables e :
  load_file w f = Raised e ->
  load_files w (f :: csv_files) processed_tables = Raised e.
Proof. intros Hf. cbn [load_files]. rewrite Hf. reflexivity. Qed.

Example locked_database_exits :
  update_database locked_world = Exited 1 /\ main locked_world = Exited 1.
Proof. split; vm_compute; reflexivity. Qed.

(** C8, on the code. The first file has the same part number on two rows,
    the database refuses the second with an [IntegrityError], which is not
    an [OperationalError]: the handler does not catch it, the run stops with
    that exception and the second file, which is sound, is never loaded.
    Without the first file the run returns the table of the second. *)
Theorem integrity_error_stops_the_run :
  enforce_primary_key
    (request_of duplicates_csv [lit "part_id"; lit "symbol"; lit "footprint"]
       [[lit "L1"; lit "Device:L"; lit "L_0603"];
        [lit "L1"; lit "Device:L"; lit "L_0805"]])
  = Some (IntegrityError (lit "UNIQUE constraint failed"))
  /\ update_database duplicates_world
     = Raised (IntegrityError (lit "UNIQUE constraint failed"))
  /\ main duplicates_world
     = Raised (IntegrityError (lit "UNIQUE constraint failed"))
  /\ update_database sound_world = Returned [capacitors_spec].
Proof. repeat split; vm_compute; reflexivity. Qed.

(** ** What the table builder hands over *)

(** A property of every table that the file loop appends holds of every
    table that the run returns. *)
Lemma load_files_Forall (P : TableSpec -> Prop) w csv_files :
  (forall f t, load_file w f = Returned (Some t) -> P t) ->
  forall processed_tables tables,
    Forall P processed_tables ->
    load_files w csv_files processed_tables = Returned tables ->
    Forall P tables.
Proof.
  intros HP.
  induction csv_files as [|f csv_files IH]; intros acc tables Hacc.
  - cbn. intros [= <-]. exact Hacc.
  - cbn [load_files]. destruct (load_file w f) as [[t|]| |] eqn:Hf; cbn [bind];
      try discriminate.
    + apply IH. apply Forall_app. split; [exact Hacc|].
      constructor; [|constructor]. exact (HP _ _ Hf).
    + apply IH. exact Hacc.
Qed.

(** The steps of [update_database] before the file loop. *)
Lemma update_database_unfold w :
  update_database w
  = if negb (folder_exists w) then Returned []
    else
      match listdir_error w with
      | Some e => Raised e
      | None =>
          match List.filter is_csv (listdir w) with
          | [] => Returned []
          | f :: csv_files =>
              match connect w with
              | Some e => Raised e
              | None => load_files w (f :: csv_files) []
              end
          end
      end.
Proof.
  unfold update_database.
  destruct (negb (folder_exists w)); [reflexivity|].
  destruct (listdir_error w); [reflexivity|].
  change (fun f => endswith (lit ".csv") (lower (filename f))) with is_csv.
  cbv zeta. destruct (List.filter is_csv (listdir w)); reflexivity.
Qed.

Lemma update_database_Forall (P : TableSpec -> Prop) w tables :
  (forall f t, load_file w f = Returned (Some t) -> P t) ->
  update_database w = Returned tables ->
  Forall P tables.
Proof.
  intros HP. rewrite update_database_unfold.
  destruct (negb (folder_exists w)); [intros [= <-]; constructor|].
  destruct (listdir_error w); [discriminate|].
  destruct (List.filter is_csv (listdir w)) as [|f csv_files].
  - intros [= <-]. constructor.
  - destruct (connect w); [discriminate|].
    apply load_files_Forall; [exact HP | constructor].
Qed.

(** Every table has a first column: [cols[0]] is defined in phase 2. *)
Lemma update_database_columns w tables :
  update_database w = Returned tables ->
  Forall (fun t => columns t <> []) tables.
Proof.
  apply update_database_Forall. intros f t Ht.
  apply load_file_appends in Ht as (raw_headers & reader & _ & Hne & _ & ->).
  cbn. destruct raw_headers; [congruence|discriminate].
Qed.

(** Every column name is made of the characters of [A-Za-z0-9_]: phase 2
    lowers ASCII names only. *)
Lemma update_database_columns_ascii w tables :
  update_database w = Returned tables ->
  Forall (fun t => Forall (fun c => Forall (fun x => x ∈ Spec.word_chars) c)
                     (columns t)) tables.
Proof.
  apply update_database_Forall. intros f t Ht.
  apply load_file_appends in Ht as (raw_headers & reader & _ & _ & _ & ->).
  cbn. apply List.Forall_forall. intros c Hc.
  apply in_map_iff in Hc as (h & <- & _).
  rewrite sanitize_sql_name_unfold.
  eapply Forall_impl; [apply sanitize_word_chars|].
  intros x Hx. cbv beta in Hx. apply bool_decide_eq_true in Hx. exact Hx.
Qed.

(** ** The descriptor generator: the lookups *)

Lemma find_column_Some what cols c :
  find_column what cols = Some c ->
  exists before after,
    cols = before ++ c :: after
    /\ lower c = what
    /\ Forall (fun c' => lower c' <> what) before.
Proof.
  unfold find_column, str_eqb.
  induction cols as [|c0 cols IH]; [discriminate|].
  cbn [List.find]. destruct (bool_decide_reflect (lower c0 = what)) as [Heq|Hne].
  - intros [= ->]. exists [], cols. repeat split; [exact Heq | constructor].
  - intros Hfind. destruct (IH Hfind) as (before & after & -> & Hc & Hbefore).
    exists (c0 :: before), after. repeat split; [exact Hc|].
    constructor; assumption.
Qed.

Lemma find_column_None what cols :
  find_column what cols = None -> forall c, c ∈ cols -> lower c <> what.
Proof.
  unfold find_column, str_eqb. intros Hfind c Hc.
  apply list_elem_of_In in Hc.
  pose proof (find_none _ _ Hfind c Hc) as Hb. cbv beta in Hb.
  apply bool_decide_eq_false in Hb. exact Hb.
Qed.

(** The test [not sym_col] fails exactly when a column matches: a match
    lowers to a non-empty word, so it is not the empty string. *)
Lemma not_find_column what cols :
  what <> [] ->
  not_ (find_column what cols) = false <-> exists c, c ∈ cols /\ lower c = what.
Proof.
  intros Hwhat. destruct (find_column what cols) as [c|] eqn:Hfind.
  - destruct (find_column_Some _ _ _ Hfind) as (before & after & -> & Hc & _).
    assert (c <> []) as Hne by (intros ->; apply Hwhat; symmetry; exact Hc).
    destruct c as [|x c]; [congruence|]. cbn [not_]. split; [intros _|reflexivity].
    exists (x :: c). split; [|exact Hc].
    apply elem_of_app. right. apply list_elem_of_here.
  - cbn [not_]. split; [discriminate|].
    intros (c & Hin & Hc). exfalso. exact (find_column_None _ _ Hfind c Hin Hc).
Qed.

Lemma has_column_symbol cols :
  not_ (find_column (lit "symbol") cols) = false
  <-> has_column (lit "symbol") cols.
Proof. apply not_find_column. discriminate. Qed.

Lemma has_column_footprint cols :
  not_ (find_column (lit "footprint") cols) = false
  <-> has_column (lit "footprint") cols.
Proof. apply not_find_column. discriminate. Qed.

(** The table loop on a table with at least one column. *)
Lemma library_entry_nonempty t :
  columns t <> [] ->
  library_entry t
  = Returned
      (if not_ (find_column (lit "symbol") (columns t))
          || not_ (find_column (lit "footprint") (columns t))
       then None else Some (entry_of t)).
Proof.
  intros Hcols. unfold library_entry, entry_of.
  destruct (columns t) as [|key_col cols]; [congruence|].
  destruct (not_ _ || not_ _); reflexivity.
Qed.

Lemma library_entry_Some t e :
  library_entry t = Returned (Some e) ->
  e = entry_of t
  /\ not_ (find_column (lit "symbol") (columns t)) = false
  /\ not_ (find_column (lit "footprint") (columns t)) = false.
Proof.
  intros He.
  assert (columns t <> []) as Hcols.
  { intros Hnil. unfold library_entry in He. rewrite Hnil in He. discriminate. }
  rewrite (library_entry_nonempty t Hcols) in He.
  destruct (not_ (find_column (lit "symbol") _)); [discriminate|].
  destruct (not_ (find_column (lit "footprint") _)); [discriminate|].
  cbn in He. injection He as <-. auto.
Qed.

(** ** The table loop of the generator *)

Lemma library_entries_nonempty tables_data :
  forall libs,
    Forall (fun t => columns t <> []) tables_data ->
    exists entries,
      Forall2 (fun t r => library_entry t = Returned r) tables_data entries
      /\ library_entries tables_data libs = Returned (libs ++ omap id entries).
Proof.
  induction tables_data as [|t tables_data IH]; intros libs Hcols.
  - exists []. split; [constructor|]. cbn. rewrite app_nil_r. reflexivity.
  - apply Forall_cons in Hcols as [Ht Hcols].
    pose proof (library_entry_nonempty t Ht) as Hentry.
    cbn [library_entries].
    destruct (not_ (find_column (lit "symbol") (columns t))
              || not_ (find_column (lit "footprint") (columns t)));
      rewrite Hentry; cbn [bind].
    + destruct (IH libs Hcols) as (entries & Hall & ->).
      exists (None :: entries). split; [constructor; assumption|]. reflexivity.
    + destruct (IH (libs ++ [entry_of t]) Hcols) as (entries & Hall & ->).
      exists (Some (entry_of t) :: entries). split; [constructor; assumption|].
      cbn. rewrite <- app_assoc. reflexivity.
Qed.

(** The generator once the table loop is over: the document is handed to
    the write, which decides whether the file holds it. *)
Lemma generate_kicad_dbl_libraries write tables_data libs :
  library_entries tables_data [] = Returned libs ->
  exists doc,
    generate_kicad_dbl write tables_data
    = Returned {| document := doc; written := goes_through write |}
    /\ libraries doc = libs.
Proof.
  intros Hlibs. unfold generate_kicad_dbl. rewrite Hlibs. cbn [bind].
  destruct write; eexists; split; reflexivity.
Qed.

(** C3. For the tables the table builder returns, the generator returns a
    descriptor, and its libraries are, in table order, the entries of
    exactly those tables whose column list has both a column equal to
    "symbol" and a column equal to "footprint" when case is ignored; a table
    that misses either has no entry. *)
Theorem descriptor_entry_iff_symbol_and_footprint :
  forall (w : World) (tables : list TableSpec),
    update_database w = Returned tables ->
    exists (doc : DescriptorDocument) (entries : list (option LibraryEntry)),
      generate_kicad_dbl (dbl_write w) tables
      = Returned {| document := doc; written := goes_through (dbl_write w) |}
      /\ libraries doc = omap id entries
      /\ Forall2
           (fun t r =>
              library_entry t = Returned r
              /\ (is_Some r <->
                  has_column (lit "symbol") (columns t)
                  /\ has_column (lit "footprint") (columns t)))
           tables entries.
Proof.
  intros w tables Hdb.
  pose proof (update_database_columns _ _ Hdb) as Hcols.
  destruct (library_entries_nonempty tables [] Hcols) as (entries & Hall & Hlibs).
  destruct (generate_kicad_dbl_libraries (dbl_write w) _ _ Hlibs)
    as (doc & Hgen & Hdoc).
  exists doc, entries. split; [exact Hgen|]. split; [exact Hdoc|].
  clear Hlibs Hdb Hgen Hdoc.
  induction Hall as [|t r tables entries Hr _ IH]; [constructor|].
  apply Forall_cons in Hcols as [Ht Hcols].
  constructor; [|exact (IH Hcols)]. split; [exact Hr|].
  rewrite (library_entry_nonempty t Ht) in Hr. injection Hr as <-.
  rewrite <- has_column_symbol, <- has_column_footprint.
  destruct (not_ (find_column (lit "symbol") _)),
           (not_ (find_column (lit "footprint") _)); cbn;
    (split; [intros [e He] | intros [Hs Hf]]);
    try discriminate; eauto.
Qed.

Lemma descriptor_entry_iff_symbol_and_footprint_witness :
  update_database mixed_world = Returned [hardware_spec; capacitors_spec]
  /\ exists (doc : DescriptorDocument) (entries : list (option LibraryEntry)),
       generate_kicad_dbl (dbl_write mixed_world)
         [hardware_spec; capacitors_spec]
       = Returned {| document := doc;
                     written := goes_through (dbl_write mixed_world) |}
       /\ libraries doc = omap id entries
       /\ Forall2
            (fun t r =>
               library_entry t = Returned r
               /\ (is_Some r <->
                   has_column (lit "symbol") (columns t)
                   /\ has_column (lit "footprint") (columns t)))
            [hardware_spec; capacitors_spec] entries.
Proof.
  split; [vm_compute; reflexivity|].
  apply (descriptor_entry_iff_symbol_and_footprint mixed_world).
  vm_compute; reflexivity.
Defined.

(** C10. In the entry of a table, the symbols field is the first column of
    the header order that equals "symbol" when case is ignored, whatever the
    number of such columns, and the footprints field is the first that
    equals "footprint". *)
Theorem entry_links_first_match :
  forall (t : TableSpec) (e : LibraryEntry),
    library_entry t = Returned (Some e) ->
    (exists before after,
        columns t = before ++ symbols e :: after
        /\ eq_nocase (symbols e) (lit "symbol")
        /\ Forall (fun c => ~ eq_nocase c (lit "symbol")) before)
    /\ (exists before after,
          columns t = before ++ footprints e :: after
          /\ eq_nocase (footprints e) (lit "footprint")
          /\ Forall (fun c => ~ eq_nocase c (lit "footprint")) before).
Proof.
  intros t e He. apply library_entry_Some in He as (-> & Hsym & Hfp).
  unfold entry_of. cbn [symbols footprints]. split.
  - destruct (find_column (lit "symbol") (columns t)) as [c|] eqn:Hfind;
      [|discriminate].
    destruct (find_column_Some _ _ _ Hfind) as (before & after & Hcols & Hc & Hb).
    exists before, after. repeat split; assumption.
  - destruct (find_column (lit "footprint") (columns t)) as [c|] eqn:Hfind;
      [|discriminate].
    destruct (find_column_Some _ _ _ Hfind) as (before & after & Hcols & Hc & Hb).
    exists before, after. repeat split; assumption.
Qed.

Lemma entry_links_first_match_witness :
  library_entry twice_linked_spec = Returned (Some (entry_of twice_linked_spec))
  /\ symbols (entry_of twice_linked_spec) = lit "Symbol"
  /\ footprints (entry_of twice_linked_spec) = lit "FootPrint"
  /\ (exists before after,
        columns twice_linked_spec
        = before ++ symbols (entry_of twice_linked_spec) :: after
        /\ eq_nocase (symbols (entry_of twice_linked_spec)) (lit "symbol")
        /\ Forall (fun c => ~ eq_nocase c (lit "symbol")) before)
  /\ (exists before after,
        columns twice_linked_spec
        = before ++ footprints (entry_of twice_linked_spec) :: after
        /\ eq_nocase (footprints (entry_of twice_linked_spec)) (lit "footprint")
        /\ Forall (fun c => ~ eq_nocase c (lit "footprint")) before).
Proof.
  split; [vm_compute; reflexivity|].
  split; [vm_compute; reflexivity|].
  split; [vm_compute; reflexivity|].
  apply (entry_links_first_match twice_linked_spec (entry_of twice_linked_spec)).
  vm_compute; reflexivity.
Defined.

(** ** The column loop *)

Lemma add_column_unfold st col :
  add_column st col
  = (fst st ++ (if not_system col then [field_entry col] else []),
     file_property (snd st) col).
Proof.
  unfold add_column, not_system, file_property, property_key, field_entry.
  destruct (negb _), (str_eqb _ _); rewrite ?app_nil_r; reflexivity.
Qed.

Lemma fold_add_column cols :
  forall st,
    fold_left add_column cols st
    = (fst st ++ List.map field_entry (List.filter not_system cols),
       fold_left file_property cols (snd st)).
Proof.
  induction cols as [|col cols IH]; intros st.
  - cbn. rewrite app_nil_r. destruct st; reflexivity.
  - cbn [fold_left List.filter]. rewrite IH, add_column_unfold. cbn [fst snd].
    destruct (not_system col); cbn [List.map];
      rewrite <- ?app_assoc, ?app_nil_r; reflexivity.
Qed.

(** After the loop, a key holds the last column that was filed under it. *)
Lemma lookup_fold_file_property cols :
  forall m k,
    fold_left file_property cols m !! k
    = match last (List.filter (fun c => bool_decide (property_key c = k)) cols) with
      | Some c => Some c
      | None => m !! k
      end.
Proof.
  induction cols as [|col cols IH]; intros m k; [reflexivity|].
  cbn [fold_left List.filter]. rewrite IH.
  destruct (bool_decide_reflect (property_key col = k)) as [Hk|Hk].
  - rewrite last_cons. destruct (last _); [reflexivity|].
    unfold file_property. rewrite Hk. apply lookup_insert_eq.
  - destruct (last _); [reflexivity|].
    unfold file_property. apply lookup_insert_ne. exact Hk.
Qed.

Lemma property_key_Value c :
  bool_decide (property_key c = lit "Value")
  = bool_decide (eq_nocase c (lit "value")).
Proof.
  apply bool_decide_ext. unfold property_key, str_eqb, eq_nocase.
  change (lower (lit "value")) with (lit "value").
  destruct (bool_decide_reflect (lower c = lit "value")) as [Hv|Hv].
  - tauto.
  - split; [|contradiction]. intros ->. exfalso. apply Hv. reflexivity.
Qed.

Lemma property_key_other c :
  ~ eq_nocase c (lit "value") -> property_key c = c.
Proof.
  intros Hv. unfold property_key, str_eqb.
  destruct (bool_decide_reflect (lower c = lit "value")) as [Hv'|_];
    [contradiction|reflexivity].
Qed.

Lemma property_key_value c :
  eq_nocase c (lit "value") -> property_key c = lit "Value".
Proof.
  intros Hv. unfold property_key, str_eqb.
  destruct (bool_decide_reflect (lower c = lit "value")) as [_|Hv'];
    [reflexivity|contradiction].
Qed.

Lemma entry_properties_lookup t k :
  properties (entry_of t) !! k
  = last (List.filter (fun c => bool_decide (property_key c = k)) (columns t)).
Proof.
  unfold entry_of. cbn [properties]. rewrite fold_add_column. cbn [snd].
  rewrite lookup_fold_file_property. rewrite lookup_empty.
  destruct (last _); reflexivity.
Qed.

Lemma entry_properties_Value t :
  properties (entry_of t) !! lit "Value" = last (value_columns (columns t)).
Proof.
  rewrite entry_properties_lookup. unfold value_columns. f_equal.
  apply filter_ext. intros c. apply property_key_Value.
Qed.

Lemma value_columns_nonempty cols :
  value_columns cols <> [] <-> has_column (lit "value") cols.
Proof.
  unfold value_columns, has_column. split.
  - destruct (List.filter _ cols) as [|c l] eqn:Hf; [congruence|]. intros _.
    assert (In c (List.filter (fun c => bool_decide (eq_nocase c (lit "value"))) cols))
      as Hin by (rewrite Hf; left; reflexivity).
    apply filter_In in Hin as [Hin Hc]. apply bool_decide_eq_true in Hc.
    exists c. split; [apply list_elem_of_In; exact Hin | exact Hc].
  - intros (c & Hin & Hc) Hnil.
    assert (In c (List.filter (fun c => bool_decide (eq_nocase c (lit "value"))) cols))
      as Hin'.
    { apply filter_In. split; [apply list_elem_of_In; exact Hin|].
      apply bool_decide_eq_true. exact Hc. }
    rewrite Hnil in Hin'. exact Hin'.
Qed.

Lemma entry_properties_plain t c :
  c ∈ columns t -> ~ eq_nocase c (lit "value") ->
  properties (entry_of t) !! c = Some c.
Proof.
  intros Hin Hc. rewrite entry_properties_lookup.
  set (l := List.filter _ _).
  assert (forall c', In c' l -> c' = c) as Hall.
  { intros c' Hc'. apply filter_In in Hc' as [_ Hk].
    apply bool_decide_eq_true in Hk.
    destruct (decide (eq_nocase c' (lit "value"))) as [Hv|Hv].
    - exfalso. apply Hc. rewrite (property_key_value c' Hv) in Hk.
      rewrite <- Hk. reflexivity.
    - rewrite (property_key_other c' Hv) in Hk. exact Hk. }
  assert (In c l) as Hcl.
  { apply filter_In. split; [apply list_elem_of_In; exact Hin|].
    apply bool_decide_eq_true. apply property_key_other. exact Hc. }
  destruct (last l) as [c'|] eqn:Hlast.
  - f_equal. apply Hall. apply list_elem_of_In.
    apply last_Some_elem_of. exact Hlast.
  - apply last_None in Hlast. rewrite Hlast in Hcl. destruct Hcl.
Qed.

Lemma entry_properties_hidden t c :
  c ∈ columns t -> eq_nocase c (lit "value") -> c <> lit "Value" ->
  properties (entry_of t) !! c = None.
Proof.
  intros Hin Hc Hne. rewrite entry_properties_lookup. apply last_None.
  destruct (List.filter _ _) as [|c' l] eqn:Hf; [reflexivity|]. exfalso.
  assert (In c' (List.filter (fun c0 => bool_decide (property_key c0 = c)) (columns t)))
    as Hc' by (rewrite Hf; left; reflexivity).
  apply filter_In in Hc' as [_ Hk]. apply bool_decide_eq_true in Hk.
  destruct (decide (eq_nocase c' (lit "value"))) as [Hv|Hv].
  - rewrite (property_key_value c' Hv) in Hk. congruence.
  - rewrite (property_key_other c' Hv) in Hk. subst c'. contradiction.
Qed.

(** In a list whose images under [f] differ, two members with the same
    image are the same member. *)
Lemma NoDup_map_eq {A B : Type} (f : A -> B) (l : list A) (x y : A) :
  NoDup (List.map f l) -> x ∈ l -> y ∈ l -> f x = f y -> x = y.
Proof.
  induction l as [|a l IH]; intros Hnd Hx Hy Hxy.
  - apply elem_of_nil in Hx. destruct Hx.
  - cbn [List.map] in Hnd. apply NoDup_cons in Hnd as [Ha Hnd].
    apply elem_of_cons in Hx as [->|Hx]; apply elem_of_cons in Hy as [->|Hy].
    + reflexivity.
    + exfalso. apply Ha. rewrite Hxy. apply list_elem_of_In, in_map,
        list_elem_of_In. exact Hy.
    + exfalso. apply Ha. rewrite <- Hxy. apply list_elem_of_In, in_map,
        list_elem_of_In. exact Hx.
    + apply IH; assumption.
Qed.

(** C4. For every table in the descriptor whose column names differ when
    case is ignored, as the column names of an SQLite table do, the
    properties map every column to itself, except that a column equal to
    "value" when case is ignored is filed under the key "Value" and not
    under its own name; "Value" is a key exactly when there is such a
    column. *)
Theorem entry_properties_as_claimed :
  forall (t : TableSpec) (e : LibraryEntry),
    library_entry t = Returned (Some e) ->
    NoDup (List.map lower (columns t)) ->
    (forall c, c ∈ columns t -> ~ eq_nocase c (lit "value") ->
               properties e !! c = Some c)
    /\ (forall c, c ∈ columns t -> eq_nocase c (lit "value") ->
                  properties e !! lit "Value" = Some c
                  /\ (c <> lit "Value" -> properties e !! c = None))
    /\ (is_Some (properties e !! lit "Value")
        <-> has_column (lit "value") (columns t)).
Proof.
  intros t e He Hnd. apply library_entry_Some in He as (-> & _ & _).
  split; [|split].
  - intros c Hin Hc. apply entry_properties_plain; assumption.
  - intros c Hin Hc. split; [|apply entry_properties_hidden; assumption].
    rewrite entry_properties_Value.
    assert (In c (value_columns (columns t))) as Hcl.
    { apply filter_In. split; [apply list_elem_of_In; exact Hin|].
      apply bool_decide_eq_true. exact Hc. }
    destruct (last (value_columns (columns t))) as [c'|] eqn:Hlast.
    + f_equal.
      apply last_Some_elem_of, list_elem_of_In, filter_In in Hlast
        as [Hin' Hc'].
      apply bool_decide_eq_true in Hc'.
      apply (NoDup_map_eq lower (columns t)); [exact Hnd| |exact Hin|].
      * apply list_elem_of_In. exact Hin'.
      * unfold eq_nocase in Hc, Hc'. congruence.
    + apply last_None in Hlast. rewrite Hlast in Hcl. destruct Hcl.
  - rewrite entry_properties_Value, last_is_Some. apply value_columns_nonempty.
Qed.

Lemma entry_properties_as_claimed_witness :
  library_entry capacitors_spec = Returned (Some (entry_of capacitors_spec))
  /\ NoDup (List.map lower (columns capacitors_spec))
  /\ properties (entry_of capacitors_spec) !! lit "Value" = Some (lit "value")
  /\ (forall c, c ∈ columns capacitors_spec -> ~ eq_nocase c (lit "value") ->
                properties (entry_of capacitors_spec) !! c = Some c)
  /\ (forall c, c ∈ columns capacitors_spec -> eq_nocase c (lit "value") ->
                properties (entry_of capacitors_spec) !! lit "Value" = Some c
                /\ (c <> lit "Value" ->
                    properties (entry_of capacitors_spec) !! c = None))
  /\ (is_Some (properties (entry_of capacitors_spec) !! lit "Value")
      <-> has_column (lit "value") (columns capacitors_spec)).
Proof.
  assert (NoDup (List.map lower (columns capacitors_spec))) as Hnd
    by (apply (bool_decide_unpack _); vm_compute; exact I).
  split; [vm_compute; reflexivity|]. split; [exact Hnd|].
  split; [vm_compute; reflexivity|].
  apply (entry_properties_as_claimed capacitors_spec (entry_of capacitors_spec));
    [vm_compute; reflexivity | exact Hnd].
Defined.

(** The names must differ for that: with the columns "value" and "VALUE",
    a header that SQLite refuses for one table, the key "Value" holds
    "VALUE" and the column "value" is filed nowhere. *)
Example two_values_not_as_claimed :
  library_entry two_values_spec = Returned (Some (entry_of two_values_spec))
  /\ properties (entry_of two_values_spec) !! lit "Value" = Some (lit "VALUE")
  /\ ~ properties_as_claimed (columns two_values_spec)
         (properties (entry_of two_values_spec)).
Proof.
  split; [vm_compute; reflexivity|].
  split; [vm_compute; reflexivity|].
  intros (_ & Hvalue & _).
  destruct (Hvalue (lit "value")) as [Hlookup _].
  - apply list_elem_of_In. vm_compute. tauto.
  - reflexivity.
  - vm_compute in Hlookup. discriminate.
Qed.

(** X27. For any column list handed to the generator, every column that is
    not "value" when case is ignored maps to itself; the columns that are
    "value" when case is ignored are filed under the key "Value" and not
    under their own name, and the key holds the last of them in header
    order; "Value" is a key exactly when there is such a column. *)
Theorem entry_properties :
  forall (t : TableSpec) (e : LibraryEntry),
    library_entry t = Returned (Some e) ->
    (forall c, c ∈ columns t -> ~ eq_nocase c (lit "value") ->
               properties e !! c = Some c)
    /\ (forall c, c ∈ columns t -> eq_nocase c (lit "value") ->
                  c <> lit "Value" -> properties e !! c = None)
    /\ properties e !! lit "Value" = last (value_columns (columns t))
    /\ (is_Some (properties e !! lit "Value")
        <-> has_column (lit "value") (columns t)).
Proof.
  intros t e He. apply library_entry_Some in He as (-> & _ & _).
  repeat split.
  - intros c Hin Hc. rewrite entry_properties_lookup.
    set (l := List.filter _ _).
    assert (forall c', In c' l -> c' = c) as Hall.
    { intros c' Hc'. apply filter_In in Hc' as [_ Hk].
      apply bool_decide_eq_true in Hk.
      destruct (decide (eq_nocase c' (lit "value"))) as [Hv|Hv].
      - exfalso. apply Hc. rewrite (property_key_value c' Hv) in Hk.
        rewrite <- Hk. reflexivity.
      - rewrite (property_key_other c' Hv) in Hk. exact Hk. }
    assert (In c l) as Hcl.
    { apply filter_In. split; [apply list_elem_of_In; exact Hin|].
      apply bool_decide_eq_true. apply property_key_other. exact Hc. }
    destruct (last l) as [c'|] eqn:Hlast.
    + f_equal. apply Hall. apply list_elem_of_In.
      apply last_Some_elem_of. exact Hlast.
    + apply last_None in Hlast. rewrite Hlast in Hcl. destruct Hcl.
  - intros c Hin Hc Hne. rewrite entry_properties_lookup.
    apply last_None.
    destruct (List.filter _ _) as [|c' l] eqn:Hf; [reflexivity|]. exfalso.
    assert (In c' (List.filter (fun c0 => bool_decide (property_key c0 = c)) (columns t)))
      as Hc' by (rewrite Hf; left; reflexivity).
    apply filter_In in Hc' as [_ Hk]. apply bool_decide_eq_true in Hk.
    destruct (decide (eq_nocase c' (lit "value"))) as [Hv|Hv].
    + rewrite (property_key_value c' Hv) in Hk. congruence.
    + rewrite (property_key_other c' Hv) in Hk. subst c'. contradiction.
  - apply entry_properties_Value.
  - rewrite entry_properties_Value, last_is_Some. apply value_columns_nonempty.
  - rewrite entry_properties_Value, last_is_Some. apply value_columns_nonempty.
Qed.

Lemma entry_properties_witness :
  library_entry two_values_spec = Returned (Some (entry_of two_values_spec))
  /\ last (value_columns (columns two_values_spec)) = Some (lit "VALUE")
  /\ (forall c, c ∈ columns two_values_spec -> ~ eq_nocase c (lit "value") ->
                properties (entry_of two_values_spec) !! c = Some c)
  /\ (forall c, c ∈ columns two_values_spec -> eq_nocase c (lit "value") ->
                c <> lit "Value" ->
                properties (entry_of two_values_spec) !! c = None)
  /\ properties (entry_of two_values_spec) !! lit "Value"
     = last (value_columns (columns two_values_spec))
  /\ (is_Some (properties (entry_of two_values_spec) !! lit "Value")
      <-> has_column (lit "value") (columns two_values_spec)).
Proof.
  split; [vm_compute; reflexivity|].
  split; [vm_compute; reflexivity|].
  apply (entry_properties two_values_spec (entry_of two_values_spec)).
  vm_compute; reflexivity.
Defined.

(** ** The fields of an entry *)

(** The scenario of the specification: [Capacitors.csv] with the header
    [part_id,symbol,footprint,value,mfg]. *)
Example capacitors_scenario :
  exists (d : DescriptorDocument) (e : LibraryEntry),
    main capacitors_world = Returned (Some d)
    /\ libraries d = [e]
    /\ lib_name e = lit "Capacitors"
    /\ key e = lit "part_id"
    /\ symbols e = lit "symbol"
    /\ footprints e = lit "footprint"
    /\ List.map (fun f => (column f, name f, visible_on_add f)) (fields e)
       = [(lit "value", lit "Value", true);
          (lit "mfg", lit "Manufacturer", false)]
    /\ properties e
       = list_to_map
           [(lit "symbol", lit "symbol"); (lit "footprint", lit "footprint");
            (lit "part_id", lit "part_id"); (lit "Value", lit "value");
            (lit "mfg", lit "mfg")].
Proof.
  eexists _, _. split; [vm_compute; reflexivity|].
  cbn [libraries]. split; [reflexivity|].
  repeat split; vm_compute; reflexivity.
Qed.

(** What the column loop keeps in the field list: the columns whose name is
    none of the three names of [SYSTEM_COLUMNS], compared as they are. *)
Lemma entry_fields t e :
  library_entry t = Returned (Some e) ->
  fields e = List.map field_entry (List.filter not_system (columns t)).
Proof.
  intros He. apply library_entry_Some in He as (-> & _ & _).
  unfold entry_of. cbn [fields]. rewrite fold_add_column. reflexivity.
Qed.

(** The two flags of a field. *)
Lemma field_entry_flags col :
  (visible_on_add (field_entry col) = true
   <-> exists v, v ∈ VISIBLE_COLUMNS /\ eq_nocase col v)
  /\ visible_in_chooser (field_entry col) = true.
Proof.
  split; [|reflexivity]. cbn [field_entry visible_on_add].
  rewrite bool_decide_eq_true, list_elem_of_In, in_map_iff.
  unfold eq_nocase. split.
  - intros (v & Hv & Hin). exists v. split; [apply list_elem_of_In; exact Hin|].
    symmetry. exact Hv.
  - intros (v & Hin & Hv). exists v. split; [symmetry; exact Hv|].
    apply list_elem_of_In. exact Hin.
Qed.

(** C2, on the code. A header [id,Symbol,Footprint,value] gives an entry
    whose key is [id], whose symbol column is [Symbol] and whose footprint
    column is [Footprint], and all three are in its field list: the loop
    compares the column with the names [part_id], [symbol] and [footprint]
    as they are spelled, not with the three columns it has just found. *)
Theorem fields_keep_key_and_link_columns :
  exists (d : DescriptorDocument) (e : LibraryEntry),
    main resistors_world = Returned (Some d)
    /\ libraries d = [e]
    /\ key e = lit "id"
    /\ symbols e = lit "Symbol"
    /\ footprints e = lit "Footprint"
    /\ List.map column (fields e)
       = [lit "id"; lit "Symbol"; lit "Footprint"; lit "value"]
    /\ List.map visible_on_add (fields e) = [false; false; false; true].
Proof.
  eexists _, _. split; [vm_compute; reflexivity|].
  cbn [libraries]. split; [reflexivity|].
  repeat split; vm_compute; reflexivity.
Qed.


(** * Further properties *)

(** ** The sanitizer *)

Lemma is_word_char_replace c :
  Spec.is_word_char (Spec.replace_space_hyphen c) = kept c.
Proof.
  unfold kept, Spec.replace_space_hyphen.
  rewrite cls_space_hyphen_spec, cls_not_word_spec, negb_involutive.
  destruct (bool_decide (c = 32 ∨ c = 45)); reflexivity.
Qed.

(** The sanitized name before the digit test: the characters that are kept,
    in their order, with the space and the hyphen turned into underscores. *)
Lemma sanitize_body name :
  List.filter Spec.is_word_char (List.map Spec.replace_space_hyphen name)
  = List.map Spec.replace_space_hyphen (List.filter kept name).
Proof.
  induction name as [|c name IH]; [reflexivity|].
  cbn [List.map List.filter]. rewrite is_word_char_replace, IH.
  destruct (kept c); reflexivity.
Qed.

Lemma sanitize_sql_name_body name :
  sanitize_sql_name name
  = (let body := List.map Spec.replace_space_hyphen (List.filter kept name) in
     if Spec.starts_with_digit body then 95 :: body else body).
Proof.
  rewrite sanitize_sql_name_unfold. unfold Spec.sanitize.
  rewrite sanitize_body. reflexivity.
Qed.

(** X1. A name that is already an identifier, made of the characters of
    [A-Za-z0-9_] and not starting with a digit, is returned as it is. *)
Theorem sanitize_sql_name_identifier :
  forall s : str,
    Forall (fun c => c ∈ Spec.word_chars) s ->
    Spec.starts_with_digit s = false ->
    sanitize_sql_name s = s.
Proof.
  intros s Hw Hd. rewrite sanitize_sql_name_unfold.
  apply sanitize_fixpoint; [|exact Hd].
  eapply Forall_impl; [exact Hw|].
  intros c Hc. apply bool_decide_eq_true. exact Hc.
Qed.

Lemma sanitize_sql_name_identifier_witness :
  Forall (fun c => c ∈ Spec.word_chars) (lit "part_id")
  /\ Spec.starts_with_digit (lit "part_id") = false
  /\ sanitize_sql_name (lit "part_id") = lit "part_id".
Proof.
  assert (Forall (fun c => c ∈ Spec.word_chars) (lit "part_id")) as Hw.
  { apply List.Forall_forall. intros c Hc. vm_compute in Hc.
    apply list_elem_of_In.
    repeat (destruct Hc as [<-|Hc]; [vm_compute; tauto|]). destruct Hc. }
  split; [exact Hw|]. split; [reflexivity|].
  apply (sanitize_sql_name_identifier (lit "part_id")); [exact Hw | reflexivity].
Defined.

(** X2. The sanitized name is empty exactly when no character of the input
    is a space, a hyphen or a character of [A-Za-z0-9_]. *)
Theorem sanitize_sql_name_empty_iff :
  forall name : str,
    sanitize_sql_name name = [] <-> Forall (fun c => kept c = false) name.
Proof.
  intros name. rewrite sanitize_sql_name_body. cbv zeta.
  assert (List.filter kept name = [] <-> Forall (fun c => kept c = false) name)
    as <-.
  { induction name as [|c name IH]; [split; [constructor|reflexivity]|].
    cbn [List.filter]. destruct (kept c) eqn:Hc.
    - split; [discriminate|]. intros H. apply Forall_cons in H as [H _].
      congruence.
    - rewrite IH. split; [intros H; constructor; assumption|].
      intros H. apply Forall_cons in H as [_ H]. exact H. }
  destruct (List.filter kept name) as [|c l]; [split; reflexivity|].
  cbn [List.map Spec.starts_with_digit].
  destruct (Spec.is_digit _); split; discriminate.
Qed.

(** X3. The sanitized name has one character for each character that is
    kept, and at most one more, the underscore put before a digit: it is
    never longer than the input by more than one. *)
Theorem sanitize_sql_name_length :
  forall name : str,
    (length (List.filter kept name) <= length (sanitize_sql_name name)
     /\ length (sanitize_sql_name name) <= S (length (List.filter kept name))
     /\ length (sanitize_sql_name name) <= S (length name))%nat.
Proof.
  intros name. rewrite sanitize_sql_name_body. cbv zeta.
  pose proof (filter_length_le kept name) as Hle.
  destruct (Spec.starts_with_digit _); cbn [length];
    rewrite length_map; lia.
Qed.

(** X4. A character that is not kept can be dropped from the input, wherever
    it stands, without changing the sanitized name: names that differ in
    such characters only get the same table or column name. *)
Theorem sanitize_sql_name_ignores :
  forall (c : char) (before after : str),
    kept c = false ->
    sanitize_sql_name (before ++ c :: after) = sanitize_sql_name (before ++ after).
Proof.
  intros c before after Hc. rewrite !sanitize_sql_name_body.
  rewrite !List.filter_app. cbn [List.filter]. rewrite Hc. reflexivity.
Qed.

Lemma sanitize_sql_name_ignores_witness :
  kept 46 = false
  /\ sanitize_sql_name (lit "Rev" ++ 46 :: lit "A")
     = sanitize_sql_name (lit "Rev" ++ lit "A").
Proof.
  split; [reflexivity|].
  apply (sanitize_sql_name_ignores 46 (lit "Rev") (lit "A")). reflexivity.
Defined.

(** X5. A space, a hyphen and an underscore at the same place give the same
    sanitized name. *)
Theorem sanitize_sql_name_separators :
  forall before after : str,
    sanitize_sql_name (before ++ 32 :: after)
    = sanitize_sql_name (before ++ 95 :: after)
    /\ sanitize_sql_name (before ++ 45 :: after)
       = sanitize_sql_name (before ++ 95 :: after).
Proof.
  intros before after. rewrite !sanitize_sql_name_body.
  rewrite !List.filter_app. cbn [List.filter].
  change (kept 32) with true. change (kept 45) with true.
  change (kept 95) with true. cbv iota.
  rewrite !List.map_app. cbn [List.map].
  change (Spec.replace_space_hyphen 32) with 95.
  change (Spec.replace_space_hyphen 45) with 95.
  change (Spec.replace_space_hyphen 95) with 95.
  split; reflexivity.
Qed.

(** ** The display names *)

Lemma lower_char_not_underscore c : c <> 95 -> lower_char c <> 95.
Proof.
  unfold lower_char, is_upper, in_range. intros Hc.
  destruct (N.leb_spec 65 c), (N.leb_spec c 90); cbn; lia.
Qed.

Lemma upper_char_not_underscore c : c <> 95 -> upper_char c <> 95.
Proof.
  unfold upper_char, is_lower, in_range. intros Hc.
  destruct (N.leb_spec 97 c), (N.leb_spec c 122); cbn; lia.
Qed.

Lemma lower_char_idem c : lower_char (lower_char c) = lower_char c.
Proof.
  unfold lower_char, is_upper, in_range.
  destruct (N.leb_spec 65 c), (N.leb_spec c 90); cbn;
    destruct (N.leb_spec 65 (c + 32)), (N.leb_spec (c + 32) 90); cbn;
    try reflexivity; try lia;
    destruct (N.leb_spec 65 c), (N.leb_spec c 90); cbn; try reflexivity; lia.
Qed.

Lemma lower_upper_char c : lower_char (upper_char c) = lower_char c.
Proof.
  unfold lower_char, upper_char, is_upper, is_lower, in_range.
  destruct (N.leb_spec 97 c), (N.leb_spec c 122); cbn;
    repeat match goal with
           | |- context [?a <=? ?b] => destruct (N.leb_spec a b); cbn
           end; try reflexivity; lia.
Qed.

Lemma title_from_not_underscore s :
  forall b, Forall (fun c => c <> 95) s -> Forall (fun c => c <> 95) (title_from b s).
Proof.
  induction s as [|c s IH]; intros b Hs; [constructor|].
  apply Forall_cons in Hs as [Hc Hs]. cbn [title_from]. constructor.
  - destruct b; [apply lower_char_not_underscore | apply upper_char_not_underscore];
      exact Hc.
  - apply IH. exact Hs.
Qed.

Lemma lower_title_from s : forall b, lower (title_from b s) = lower s.
Proof.
  induction s as [|c s IH]; intros b; [reflexivity|].
  cbn [title_from lower List.map]. fold (lower (title_from (is_alpha c) s)).
  fold (lower s). rewrite IH.
  destruct b; [rewrite lower_char_idem | rewrite lower_upper_char]; reflexivity.
Qed.

Lemma replace_underscore_not_underscore s :
  Forall (fun c => c <> 95) (replace_char 95 (lit " ") s).
Proof.
  induction s as [|c s IH]; [constructor|].
  cbn [replace_char flat_map]. fold (replace_char 95 (lit " ") s).
  destruct (N.eqb_spec c 95) as [->|Hc].
  - constructor; [discriminate|exact IH].
  - constructor; [exact Hc|exact IH].
Qed.

(** X6. The label of a column never holds an underscore. *)
Theorem get_column_display_name_no_underscore :
  forall col_name : str,
    Forall (fun c => c <> 95) (get_column_display_name col_name).
Proof.
  intros col_name. unfold get_column_display_name.
  destruct (str_eqb _ _); [repeat constructor; discriminate|].
  destruct (str_eqb _ _); [repeat constructor; discriminate|].
  destruct (str_eqb _ _); [repeat constructor; discriminate|].
  apply title_from_not_underscore, replace_underscore_not_underscore.
Qed.

Lemma length_title_from s : forall b, length (title_from b s) = length s.
Proof.
  induction s as [|c s IH]; intros b; [reflexivity|].
  cbn [title_from length]. rewrite IH. reflexivity.
Qed.

Lemma length_replace_underscore s :
  length (replace_char 95 (lit " ") s) = length s.
Proof.
  induction s as [|c s IH]; [reflexivity|].
  cbn [replace_char flat_map]. fold (replace_char 95 (lit " ") s).
  rewrite length_app, IH. destruct (c =? 95); reflexivity.
Qed.

(** X7. The label of a column name made of the characters of [A-Za-z0-9_],
    as the table builder gives them, is one of the three fixed labels, or it
    reads as the column name with a space for every underscore, up to the
    case of the letters. *)
Theorem get_column_display_name_reads_as_column :
  forall col_name : str,
    Forall (fun c => c ∈ Spec.word_chars) col_name ->
    get_column_display_name col_name ∈ override_labels
    \/ (length (get_column_display_name col_name) = length col_name
        /\ eq_nocase (get_column_display_name col_name)
             (replace_char 95 (lit " ") col_name)).
Proof.
  intros col_name _. unfold get_column_display_name, override_labels.
  destruct (str_eqb _ _); [left; set_solver|].
  destruct (str_eqb _ _); [left; set_solver|].
  destruct (str_eqb _ _); [left; set_solver|].
  right. split.
  - unfold title. rewrite length_title_from. apply length_replace_underscore.
  - unfold eq_nocase, title. apply lower_title_from.
Qed.

Lemma get_column_display_name_reads_as_column_witness :
  Forall (fun c => c ∈ Spec.word_chars) (lit "part_id")
  /\ get_column_display_name (lit "part_id") = lit "Part Id"
  /\ (get_column_display_name (lit "part_id") ∈ override_labels
      \/ (length (get_column_display_name (lit "part_id"))
          = length (lit "part_id")
          /\ eq_nocase (get_column_display_name (lit "part_id"))
               (replace_char 95 (lit " ") (lit "part_id")))).
Proof.
  assert (Forall (fun c => c ∈ Spec.word_chars) (lit "part_id")) as Hw.
  { apply List.Forall_forall. intros c Hc. vm_compute in Hc.
    apply list_elem_of_In.
    repeat (destruct Hc as [<-|Hc]; [vm_compute; tauto|]). destruct Hc. }
  split; [exact Hw|]. split; [reflexivity|].
  apply (get_column_display_name_reads_as_column (lit "part_id")). exact Hw.
Defined.

(** ** The table builder: what is sent to the database *)

(** X8. When a file is read, no column and no data row is dropped, and every
    row to insert has exactly one field for each header. *)
Theorem read_csv_shape :
  forall (f : SourceFile) (headers : list str) (rows : list (list str)),
    read_csv f = Some (headers, rows) ->
    exists raw_headers reader,
      content f = Some (raw_headers :: reader)
      /\ length headers = length raw_headers
      /\ length rows = length reader
      /\ Forall (fun row => length row = length headers) rows.
Proof.
  intros f headers rows Hread.
  apply read_csv_Some in Hread as (raw_headers & reader & Hc & _ & -> & ->).
  exists raw_headers, reader. split; [exact Hc|].
  rewrite !length_map. split; [reflexivity|]. split; [reflexivity|].
  apply List.Forall_forall. intros row Hrow.
  apply in_map_iff in Hrow as (row0 & <- & _).
  unfold normalize_row. rewrite length_map.
  destruct (Nat.ltb_spec (length row0) (length raw_headers)).
  - rewrite length_take, length_app, repeat_length. lia.
  - rewrite length_take. lia.
Qed.

Lemma read_csv_shape_witness :
  read_csv capacitors_csv
  = Some (columns capacitors_spec,
          List.map (normalize_row (columns capacitors_spec))
            (tail (default [] (content capacitors_csv))))
  /\ exists raw_headers reader,
       content capacitors_csv = Some (raw_headers :: reader)
       /\ length (columns capacitors_spec) = length raw_headers
       /\ length (List.map (normalize_row (columns capacitors_spec))
                    (tail (default [] (content capacitors_csv))))
          = length reader
       /\ Forall (fun row => length row = length (columns capacitors_spec))
            (List.map (normalize_row (columns capacitors_spec))
               (tail (default [] (content capacitors_csv)))).
Proof.
  split; [vm_compute; reflexivity|].
  apply (read_csv_shape capacitors_csv). vm_compute; reflexivity.
Defined.

Lemma word_chars_no_placeholder s :
  Forall (fun c => c ∈ Spec.word_chars) s -> placeholders s = 0%nat.
Proof.
  intros Hs. unfold placeholders. apply count_occ_not_In. intros Hin.
  rewrite List.Forall_forall in Hs. specialize (Hs _ Hin).
  apply list_elem_of_In in Hs. vm_compute in Hs.
  repeat (destruct Hs as [Hs|Hs]; [discriminate|]). exact Hs.
Qed.

Lemma placeholders_join n :
  placeholders (join (lit ", ") (repeat (lit "?") n)) = n.
Proof.
  induction n as [|n IH]; [reflexivity|].
  destruct n as [|n]; [reflexivity|].
  change (repeat (lit "?") (S (S n)))
    with (lit "?" :: repeat (lit "?") (S n)).
  change (join (lit ", ") (lit "?" :: repeat (lit "?") (S n)))
    with (lit "?" ++ lit ", " ++ join (lit ", ") (repeat (lit "?") (S n))).
  unfold placeholders in *. rewrite !count_occ_app, IH. reflexivity.
Qed.

Lemma placeholders_app a b :
  placeholders (a ++ b) = (placeholders a + placeholders b)%nat.
Proof. apply count_occ_app. Qed.

Lemma sanitize_sql_name_word_chars name :
  Forall (fun c => c ∈ Spec.word_chars) (sanitize_sql_name name).
Proof.
  rewrite sanitize_sql_name_unfold.
  eapply Forall_impl; [apply sanitize_word_chars|].
  intros c Hc. cbv beta in Hc. apply bool_decide_eq_true in Hc. exact Hc.
Qed.

Lemma normalize_row_length headers row :
  length (normalize_row headers row) = length headers.
Proof.
  unfold normalize_row.
  destruct (Nat.ltb_spec (length row) (length headers)).
  - rewrite length_take, length_app, repeat_length. lia.
  - rewrite length_take. lia.
Qed.

(** X9. The [INSERT] statement of a file has exactly one placeholder for
    each header of the file, which is the length of every row bound to it. *)
Theorem insert_stmt_placeholders :
  forall (f : SourceFile) (raw_headers : list str) (reader : list (list str)),
    placeholders (insert_stmt (request_of f raw_headers reader))
    = length raw_headers
    /\ Forall (fun row => length row = length raw_headers)
         (insert_rows (request_of f raw_headers reader)).
Proof.
  intros f raw_headers reader. unfold request_of, sql_request.
  cbn [insert_stmt insert_rows]. split.
  - rewrite !placeholders_app, placeholders_join, length_map.
    rewrite (word_chars_no_placeholder _ (sanitize_sql_name_word_chars _)).
    change (placeholders (lit "INSERT INTO ")) with 0%nat.
    change (placeholders (lit " VALUES (")) with 0%nat.
    change (placeholders (lit ")")) with 0%nat.
    lia.
  - apply List.Forall_forall. intros row Hrow.
    apply in_map_iff in Hrow as (row0 & <- & _).
    rewrite normalize_row_length. apply length_map.
Qed.

Lemma col_defs_cons col headers :
  col_defs (col :: headers)
  = (col ++ lit " TEXT PRIMARY KEY")
      :: List.map (fun c => c ++ lit " TEXT") headers.
Proof.
  unfold col_defs. rewrite imap_cons. cbn [Nat.eqb]. f_equal.
  unfold compose. cbn [Nat.eqb]. apply imap_const.
Qed.

Lemma join_cons sep x parts :
  join sep (x :: parts) = x ++ flat_map (fun y => sep ++ y) parts.
Proof.
  revert x. induction parts as [|y parts IH]; intros x.
  - cbn. rewrite app_nil_r. reflexivity.
  - change (join sep (x :: y :: parts)) with (x ++ sep ++ join sep (y :: parts)).
    rewrite IH. cbn [flat_map]. rewrite <- app_assoc. reflexivity.
Qed.

(** X10. The [CREATE TABLE] statement of a file names the table by the
    sanitized stem and declares the sanitized headers in header order: the
    first one, and no other, as [TEXT PRIMARY KEY], each of the others as
    [TEXT]. *)
Theorem create_stmt_shape :
  forall (f : SourceFile) (h : str) (raw_headers : list str)
         (reader : list (list str)),
    create_stmt (request_of f (h :: raw_headers) reader)
    = lit "CREATE TABLE " ++ sanitize_sql_name (splitext_root (filename f))
        ++ lit " (" ++ sanitize_sql_name h ++ lit " TEXT PRIMARY KEY"
        ++ flat_map (fun c => lit ", " ++ sanitize_sql_name c ++ lit " TEXT")
             raw_headers
        ++ lit ")".
Proof.
  intros f h raw_headers reader. unfold request_of, sql_request.
  cbn [create_stmt List.map]. rewrite col_defs_cons, join_cons.
  assert (flat_map (fun y => lit ", " ++ y)
            (List.map (fun c => c ++ lit " TEXT")
               (List.map sanitize_sql_name raw_headers))
          = flat_map (fun c => lit ", " ++ sanitize_sql_name c ++ lit " TEXT")
              raw_headers) as ->.
  { induction raw_headers as [|c raw_headers IH]; [reflexivity|].
    cbn [List.map flat_map]. rewrite IH. reflexivity. }
  rewrite <- !app_assoc. reflexivity.
Qed.

Lemma sql_chars_check l :
  forallb (fun c => bool_decide (c ∈ sql_chars)) l = true ->
  Forall (fun c => c ∈ sql_chars) l.
Proof.
  intros H. apply List.Forall_forall. intros c Hc.
  rewrite forallb_forall in H. specialize (H c Hc).
  apply bool_decide_eq_true in H. exact H.
Qed.

Lemma word_chars_sql_chars l :
  Forall (fun c => c ∈ Spec.word_chars) l -> Forall (fun c => c ∈ sql_chars) l.
Proof.
  intros Hl. eapply Forall_impl; [exact Hl|].
  intros c Hc. unfold sql_chars. apply elem_of_app. left. exact Hc.
Qed.

Lemma join_Forall (P : N -> Prop) sep parts :
  Forall P sep -> Forall (Forall P) parts -> Forall P (join sep parts).
Proof.
  intros Hsep Hparts. induction Hparts as [|x parts Hx Hparts IH]; [constructor|].
  destruct parts as [|y parts]; [exact Hx|].
  change (join sep (x :: y :: parts)) with (x ++ sep ++ join sep (y :: parts)).
  apply Forall_app. split; [exact Hx|].
  apply Forall_app. split; [exact Hsep|exact IH].
Qed.

(** X11. The three statements sent for a file are made of the characters of
    [A-Za-z0-9_], the space, the parentheses, the comma and the question
    mark only, whatever the file name and the headers: no quote and no
    semicolon of a file reaches the SQL text. *)
Theorem sql_request_characters :
  forall (f : SourceFile) (raw_headers : list str) (reader : list (list str)),
    Forall (fun c => c ∈ sql_chars) (drop_stmt (request_of f raw_headers reader))
    /\ Forall (fun c => c ∈ sql_chars)
         (create_stmt (request_of f raw_headers reader))
    /\ Forall (fun c => c ∈ sql_chars)
         (insert_stmt (request_of f raw_headers reader)).
Proof.
  intros f raw_headers reader. unfold request_of, sql_request.
  cbn [drop_stmt create_stmt insert_stmt].
  pose proof (word_chars_sql_chars _
                (sanitize_sql_name_word_chars (splitext_root (filename f))))
    as Hname.
  repeat split; repeat (apply Forall_app; split);
    try exact Hname; try (apply sql_chars_check; reflexivity).
  - apply join_Forall; [apply sql_chars_check; reflexivity|].
    destruct raw_headers as [|h raw_headers]; [constructor|].
    cbn [List.map]. rewrite col_defs_cons. constructor.
    + apply Forall_app. split; [|apply sql_chars_check; reflexivity].
      apply word_chars_sql_chars, sanitize_sql_name_word_chars.
    + apply List.Forall_forall. intros d Hd.
      apply in_map_iff in Hd as (c & <- & Hc).
      apply in_map_iff in Hc as (h' & <- & _).
      apply Forall_app. split; [|apply sql_chars_check; reflexivity].
      apply word_chars_sql_chars, sanitize_sql_name_word_chars.
  - apply join_Forall; [apply sql_chars_check; reflexivity|].
    apply List.Forall_forall. intros d Hd. apply repeat_spec in Hd as ->.
    apply sql_chars_check. reflexivity.
Qed.

(** ** The table builder: the stem of a file name *)

Lemma last_dot_None ext : Forall (fun c => c <> 46) ext -> last_dot ext = None.
Proof.
  induction 1 as [|c ext Hc _ IH]; [reflexivity|].
  cbn [last_dot]. rewrite IH. destruct (N.eqb_spec c 46); [contradiction|reflexivity].
Qed.

Lemma last_dot_app stem ext :
  Forall (fun c => c <> 46) ext ->
  last_dot (stem ++ 46 :: ext) = Some (length stem).
Proof.
  intros Hext. induction stem as [|c stem IH].
  - cbn [app last_dot length]. rewrite (last_dot_None ext Hext). reflexivity.
  - cbn [app last_dot length]. rewrite IH. reflexivity.
Qed.

(** X12. For a file name [stem.ext] whose extension has no dot, the name the
    table is derived from is the stem; unless the stem is empty or made of
    dots only, in which case it is the whole file name. *)
Theorem splitext_root_stem :
  forall stem ext : str,
    Forall (fun c => c <> 46) ext ->
    splitext_root (stem ++ 46 :: ext)
    = if forallb (fun c => c =? 46) stem then stem ++ 46 :: ext else stem.
Proof.
  intros stem ext Hext. unfold splitext_root.
  rewrite (last_dot_app stem ext Hext), take_app_length.
  reflexivity.
Qed.

Lemma splitext_root_stem_witness :
  Forall (fun c => c <> 46) (lit "csv")
  /\ splitext_root (lit "Capacitors" ++ 46 :: lit "csv")
     = (if forallb (fun c => c =? 46) (lit "Capacitors")
        then lit "Capacitors" ++ 46 :: lit "csv" else lit "Capacitors").
Proof.
  assert (Forall (fun c => c <> 46) (lit "csv")) as Hext
    by (repeat constructor; discriminate).
  split; [exact Hext|].
  apply (splitext_root_stem (lit "Capacitors") (lit "csv")). exact Hext.
Defined.

(** ** The table builder: how a run ends *)


Lemma read_csv_content f raw_headers reader :
  content f = Some (raw_headers :: reader) ->
  raw_headers <> [] ->
  read_csv f
  = Some (List.map sanitize_sql_name raw_headers,
          List.map (normalize_row (List.map sanitize_sql_name raw_headers)) reader).
Proof.
  intros Hc Hne. apply read_csv_Some. exists raw_headers, reader.
  repeat split; assumption.
Qed.

(** The four ways the file loop can treat a file, read off the answers of
    the environment. *)
Lemma load_file_cases w f :
  (read_csv f = None /\ load_file w f = Returned None)
  \/ exists raw_headers reader,
       content f = Some (raw_headers :: reader)
       /\ raw_headers <> []
       /\ load_file w f
          = match sql f (request_of f raw_headers reader) with
            | None => Returned (Some (table_of w f raw_headers))
            | Some (OperationalError msg) =>
                if contains (lit "locked") msg then Exited 1 else Returned None
            | Some e => Raised e
            end.
Proof.
  destruct (read_csv f) as [[headers rows]|] eqn:Hread.
  - right. apply read_csv_Some in Hread as (raw_headers & reader & Hc & Hne & -> & ->).
    exists raw_headers, reader. split; [exact Hc|]. split; [exact Hne|].
    unfold load_file. rewrite (read_csv_content _ _ _ Hc Hne).
    fold (request_of f raw_headers reader).
    destruct (sql f (request_of f raw_headers reader)) as [[]|]; reflexivity.
  - left. split; [reflexivity|]. unfold load_file. rewrite Hread. reflexivity.
Qed.

Lemma load_file_Exited w f status :
  load_file w f = Exited status -> status = 1%Z /\ meets_lock f.
Proof.
  destruct (load_file_cases w f) as [[_ ->]|(raw_headers & reader & Hc & Hne & ->)];
    [discriminate|].
  destruct (sql f (request_of f raw_headers reader)) as [[msg|msg|msg|msg|msg]|] eqn:Hsql;
    try discriminate.
  destruct (contains (lit "locked") msg) eqn:Hlock; [|discriminate].
  intros [= <-]. split; [reflexivity|].
  exists raw_headers, reader, msg. repeat split; assumption.
Qed.


(** The file loop as a whole: it returns the tables of the files that are
    recorded, in order, or it stops at the first file that does not pass. *)
Lemma load_files_run w csv_files :
  forall processed_tables,
    match load_files w csv_files processed_tables with
    | Returned tables =>
        exists rs,
          Forall2 (fun f r => load_file w f = Returned r) csv_files rs
          /\ tables = processed_tables ++ omap id rs
    | Exited status =>
        exists before f after,
          csv_files = before ++ f :: after
          /\ Forall (passes w) before
          /\ load_file w f = Exited status
    | Raised e =>
        exists before f after,
          csv_files = before ++ f :: after
          /\ Forall (passes w) before
          /\ load_file w f = Raised e
    end.
Proof.
  induction csv_files as [|f csv_files IH]; intros acc.
  - cbn. exists []. split; [constructor|]. rewrite app_nil_r. reflexivity.
  - cbn [load_files]. destruct (load_file w f) as [r|status|e] eqn:Hf; cbn [bind].
    + assert (passes w f) as Hpass by (exists r; exact Hf).
      set (acc' := match r with Some t => acc ++ [t] | None => acc end).
      assert (match r with
              | Some t => load_files w csv_files (acc ++ [t])
              | None => load_files w csv_files acc
              end = load_files w csv_files acc') as -> by (destruct r; reflexivity).
      specialize (IH acc').
      destruct (load_files w csv_files acc') as [tables|status|e].
      * destruct IH as (rs & Hall & ->). exists (r :: rs).
        split; [constructor; assumption|].
        subst acc'. destruct r; cbn; rewrite <- ?app_assoc; reflexivity.
      * destruct IH as (before & g & after & -> & Hbefore & Hg).
        exists (f :: before), g, after. repeat split; [|exact Hg].
        constructor; assumption.
      * destruct IH as (before & g & after & -> & Hbefore & Hg).
        exists (f :: before), g, after. repeat split; [|exact Hg].
        constructor; assumption.
    + exists [], f, csv_files. repeat split; [constructor|exact Hf].
    + exists [], f, csv_files. repeat split; [constructor|exact Hf].
Qed.


(** X14. When a run on an existing folder returns, its tables are those of
    the CSV files that were recorded, one for each, in the order of the
    folder listing. *)
Theorem update_database_in_listing_order :
  forall (w : World) (tables : list TableSpec),
    folder_exists w = true ->
    update_database w = Returned tables ->
    exists rs,
      Forall2 (fun f r => load_file w f = Returned r)
        (List.filter is_csv (listdir w)) rs
      /\ tables = omap id rs.
Proof.
  intros w tables Hfolder. rewrite update_database_unfold, Hfolder. cbn [negb].
  destruct (listdir_error w); [discriminate|].
  destruct (List.filter is_csv (listdir w)) as [|f csv_files] eqn:Hcsv.
  - intros [= <-]. exists []. split; [constructor|reflexivity].
  - destruct (connect w); [discriminate|].
    pose proof (load_files_run w (f :: csv_files) []) as Hrun.
    intros Hret. rewrite Hret in Hrun. exact Hrun.
Qed.

Lemma update_database_in_listing_order_witness :
  folder_exists mixed_world = true
  /\ update_database mixed_world = Returned [hardware_spec; capacitors_spec]
  /\ exists rs,
       Forall2 (fun f r => load_file mixed_world f = Returned r)
         (List.filter is_csv (listdir mixed_world)) rs
       /\ [hardware_spec; capacitors_spec] = omap id rs.
Proof.
  split; [reflexivity|]. split; [vm_compute; reflexivity|].
  apply (update_database_in_listing_order mixed_world);
    [reflexivity | vm_compute; reflexivity].
Defined.

(** The file loop asks nothing of the world but the case tables. *)
Lemma load_file_ext w1 w2 f :
  title_unicode w1 = title_unicode w2 -> load_file w1 f = load_file w2 f.
Proof. intros H. unfold load_file. rewrite H. reflexivity. Qed.

Lemma load_files_ext w1 w2 csv_files processed_tables :
  title_unicode w1 = title_unicode w2 ->
  load_files w1 csv_files processed_tables
  = load_files w2 csv_files processed_tables.
Proof.
  intros H. revert processed_tables.
  induction csv_files as [|f csv_files IH]; intros acc; [reflexivity|].
  cbn [load_files]. rewrite (load_file_ext w1 w2 f H).
  destruct (load_file w2 f) as [[t|]| |]; cbn [bind]; auto.
Qed.

(** X15. A file whose name does not end in [.csv], whatever the case of the
    letters, has no part in the run: with or without it the outcome is the
    same, whatever the file holds and whatever the database would answer. *)
Theorem update_database_ignores_other_files :
  forall (f : SourceFile) (before after : list SourceFile)
         (exists_ : bool) (le cn dw : option exception) (tu : str -> str),
    is_csv f = false ->
    update_database
      {| folder_exists := exists_; listdir_error := le;
         listdir := before ++ f :: after; connect := cn;
         title_unicode := tu; dbl_write := dw |}
    = update_database
        {| folder_exists := exists_; listdir_error := le;
           listdir := before ++ after; connect := cn;
           title_unicode := tu; dbl_write := dw |}.
Proof.
  intros f before after exists_ le cn dw tu Hf.
  rewrite !update_database_unfold. cbn [folder_exists listdir_error listdir connect].
  rewrite !List.filter_app. cbn [List.filter]. rewrite Hf.
  destruct (negb exists_); [reflexivity|]. destruct le; [reflexivity|].
  destruct (List.filter is_csv before ++ List.filter is_csv after);
    [reflexivity|].
  destruct cn; [reflexivity|]. apply load_files_ext. reflexivity.
Qed.

Lemma update_database_ignores_other_files_witness :
  is_csv notes_txt = false
  /\ update_database
       {| folder_exists := true; listdir_error := None;
          listdir := [hardware_csv] ++ notes_txt :: [capacitors_csv];
          connect := None;
          title_unicode := ascii_runtime; dbl_write := None |}
     = update_database
         {| folder_exists := true; listdir_error := None;
            listdir := [hardware_csv] ++ [capacitors_csv];
            connect := None;
            title_unicode := ascii_runtime; dbl_write := None |}.
Proof.
  split; [reflexivity|].
  apply (update_database_ignores_other_files notes_txt [hardware_csv]
           [capacitors_csv] true None None None ascii_runtime).
  reflexivity.
Defined.

(** X16. The only exit of the table builder is the one with status 1, and it
    is taken at the first CSV file that meets an [OperationalError] whose
    message holds "locked": every CSV file before it was gone through. *)
Theorem update_database_exit :
  forall (w : World) (status : Z),
    update_database w = Exited status ->
    status = 1%Z
    /\ exists before f after,
         List.filter is_csv (listdir w) = before ++ f :: after
         /\ Forall (passes w) before
         /\ meets_lock f.
Proof.
  intros w status. rewrite update_database_unfold.
  destruct (negb (folder_exists w)); [discriminate|].
  destruct (listdir_error w); [discriminate|].
  destruct (List.filter is_csv (listdir w)) as [|f0 csv_files]; [discriminate|].
  destruct (connect w); [discriminate|].
  pose proof (load_files_run w (f0 :: csv_files) []) as Hrun.
  intros Hexit. rewrite Hexit in Hrun.
  destruct Hrun as (before & f & after & Hfiles & Hbefore & Hf).
  apply load_file_Exited in Hf as [-> Hlock].
  split; [reflexivity|]. exists before, f, after. repeat split; assumption.
Qed.

Lemma update_database_exit_witness :
  update_database locked_world = Exited 1
  /\ 1%Z = 1%Z
  /\ exists before f after,
       List.filter is_csv (listdir locked_world) = before ++ f :: after
       /\ Forall (passes locked_world) before
       /\ meets_lock f.
Proof.
  split; [vm_compute; reflexivity|].
  apply (update_database_exit locked_world 1). vm_compute; reflexivity.
Defined.



(** ** The descriptor generator: errors *)



(** ** The script as a whole *)

(** X19. After the table builder returns, the second phase raises nothing
    and ends the process nowhere.  With no table the script generates no
    descriptor.  With at least one it builds the document of those tables,
    and the run leaves that descriptor exactly when the write goes through:
    a write that fails is logged, and the run ends without a descriptor. *)
Theorem main_after_update_database :
  forall (w : World) (tables : list TableSpec),
    update_database w = Returned tables ->
    (tables = [] /\ main w = Returned None)
    \/ (tables <> []
        /\ exists doc,
             generate_kicad_dbl (dbl_write w) tables
             = Returned {| document := doc;
                           written := goes_through (dbl_write w) |}
             /\ main w
                = Returned (if goes_through (dbl_write w) then Some doc
                            else None)).
Proof.
  intros w tables Hdb. unfold main. rewrite Hdb. cbn [bind].
  destruct tables as [|t tables]; [left; split; reflexivity|].
  right. split; [discriminate|].
  pose proof (update_database_columns _ _ Hdb) as Hcols.
  destruct (library_entries_nonempty (t :: tables) [] Hcols) as (entries & _ & Hlibs).
  destruct (generate_kicad_dbl_libraries (dbl_write w) _ _ Hlibs)
    as (doc & Hgen & _).
  exists doc. split; [exact Hgen|]. rewrite Hgen. reflexivity.
Qed.

Lemma main_after_update_database_witness :
  update_database read_only_world = Returned [hardware_spec; capacitors_spec]
  /\ main read_only_world = Returned None
  /\ (([hardware_spec; capacitors_spec] = []
       /\ main read_only_world = Returned None)
      \/ ([hardware_spec; capacitors_spec] <> []
          /\ exists doc,
               generate_kicad_dbl (dbl_write read_only_world)
                 [hardware_spec; capacitors_spec]
               = Returned {| document := doc;
                             written := goes_through (dbl_write read_only_world) |}
               /\ main read_only_world
                  = Returned (if goes_through (dbl_write read_only_world)
                              then Some doc else None))).
Proof.
  split; [vm_compute; reflexivity|]. split; [vm_compute; reflexivity|].
  apply (main_after_update_database read_only_world). vm_compute; reflexivity.
Defined.

Example generate_kicad_dbl_no_columns :
  generate_kicad_dbl None [capacitors_spec; no_columns_spec]
  = Raised index_error.
Proof. vm_compute; reflexivity. Qed.

(** ** The descriptor generator: the entry of a table *)

Lemma find_column_elem what cols c :
  find_column what cols = Some c -> c ∈ cols /\ lower c = what.
Proof.
  intros Hfind.
  destruct (find_column_Some _ _ _ Hfind) as (before & after & -> & Hc & _).
  split; [|exact Hc]. apply elem_of_app. right. apply list_elem_of_here.
Qed.

(** X20. In the entry of a table the key is the first column, whatever its
    name; the symbol and the footprint columns are two different columns of
    the table, and each of them is mapped to itself in the properties. *)
Theorem entry_key_and_links :
  forall (t : TableSpec) (e : LibraryEntry),
    library_entry t = Returned (Some e) ->
    head (columns t) = Some (key e)
    /\ symbols e ∈ columns t
    /\ footprints e ∈ columns t
    /\ symbols e <> footprints e
    /\ properties e !! symbols e = Some (symbols e)
    /\ properties e !! footprints e = Some (footprints e).
Proof.
  intros t e He.
  assert (columns t <> []) as Hcols.
  { intros Hnil. unfold library_entry in He. rewrite Hnil in He. discriminate. }
  apply library_entry_Some in He as (-> & Hsym & Hfp).
  change (key (entry_of t)) with (default [] (head (columns t))).
  change (symbols (entry_of t))
    with (default [] (find_column (lit "symbol") (columns t))).
  change (footprints (entry_of t))
    with (default [] (find_column (lit "footprint") (columns t))).
  destruct (find_column (lit "symbol") (columns t)) as [sym|] eqn:Hs;
    [|discriminate].
  destruct (find_column (lit "footprint") (columns t)) as [fp|] eqn:Hf;
    [|discriminate].
  apply find_column_elem in Hs as [Hsin Hslow].
  apply find_column_elem in Hf as [Hfin Hflow].
  change (default [] (Some sym)) with sym.
  change (default [] (Some fp)) with fp.
  split; [|repeat split].
  - destruct (columns t); [congruence|reflexivity].
  - exact Hsin.
  - exact Hfin.
  - intros ->. rewrite Hslow in Hflow. discriminate.
  - apply entry_properties_plain; [exact Hsin|].
    unfold eq_nocase. rewrite Hslow. discriminate.
  - apply entry_properties_plain; [exact Hfin|].
    unfold eq_nocase. rewrite Hflow. discriminate.
Qed.

Lemma entry_key_and_links_witness :
  library_entry twice_linked_spec = Returned (Some (entry_of twice_linked_spec))
  /\ head (columns twice_linked_spec) = Some (key (entry_of twice_linked_spec))
  /\ symbols (entry_of twice_linked_spec) ∈ columns twice_linked_spec
  /\ footprints (entry_of twice_linked_spec) ∈ columns twice_linked_spec
  /\ symbols (entry_of twice_linked_spec)
     <> footprints (entry_of twice_linked_spec)
  /\ properties (entry_of twice_linked_spec)
       !! symbols (entry_of twice_linked_spec)
     = Some (symbols (entry_of twice_linked_spec))
  /\ properties (entry_of twice_linked_spec)
       !! footprints (entry_of twice_linked_spec)
     = Some (footprints (entry_of twice_linked_spec)).
Proof.
  split; [vm_compute; reflexivity|].
  apply (entry_key_and_links twice_linked_spec (entry_of twice_linked_spec)).
  vm_compute; reflexivity.
Defined.

(** X21. The fields of an entry are, in header order, the columns whose
    name is none of [part_id], [symbol] and [footprint] as these three are
    spelled: a column with one of these names is never a field, and every
    other column is one, once for each time it stands in the header. *)
Theorem entry_field_columns :
  forall (t : TableSpec) (e : LibraryEntry),
    library_entry t = Returned (Some e) ->
    List.map column (fields e)
    = List.filter (fun col => negb (bool_decide (col ∈ SYSTEM_COLUMNS)))
        (columns t).
Proof.
  intros t e He. rewrite (entry_fields t e He), List.map_map.
  cbn [field_entry column]. rewrite List.map_id. reflexivity.
Qed.

Lemma entry_field_columns_witness :
  library_entry capacitors_spec = Returned (Some (entry_of capacitors_spec))
  /\ List.map column (fields (entry_of capacitors_spec))
     = [lit "value"; lit "mfg"]
  /\ List.map column (fields (entry_of capacitors_spec))
     = List.filter (fun col => negb (bool_decide (col ∈ SYSTEM_COLUMNS)))
         (columns capacitors_spec).
Proof.
  split; [vm_compute; reflexivity|]. split; [vm_compute; reflexivity|].
  apply (entry_field_columns capacitors_spec (entry_of capacitors_spec)).
  vm_compute; reflexivity.
Defined.

(** X22. Every field of an entry is shown in the chooser, carries the
    display name of its column, and is visible on add exactly when its
    column is "value" or "rating" when case is ignored. *)
Theorem entry_field_flags :
  forall (t : TableSpec) (e : LibraryEntry),
    library_entry t = Returned (Some e) ->
    Forall (fun f =>
              visible_in_chooser f = true
              /\ name f = get_column_display_name (column f)
              /\ (visible_on_add f = true
                  <-> eq_nocase (column f) (lit "value")
                      \/ eq_nocase (column f) (lit "rating")))
      (fields e).
Proof.
  intros t e He. rewrite (entry_fields t e He).
  apply List.Forall_forall. intros f Hf.
  apply in_map_iff in Hf as (col & <- & _).
  split; [reflexivity|]. split; [reflexivity|].
  rewrite (proj1 (field_entry_flags col)). cbn [column field_entry].
  unfold VISIBLE_COLUMNS. split.
  - intros (v & Hv & Hcol). apply elem_of_cons in Hv as [->|Hv]; [left; exact Hcol|].
    apply list_elem_of_singleton in Hv as ->. right. exact Hcol.
  - intros [Hcol|Hcol].
    + exists (lit "value"). split; [apply list_elem_of_here|exact Hcol].
    + exists (lit "rating"). split; [|exact Hcol].
      apply list_elem_of_further, list_elem_of_here.
Qed.

Lemma entry_field_flags_witness :
  library_entry capacitors_spec = Returned (Some (entry_of capacitors_spec))
  /\ Forall (fun f =>
               visible_in_chooser f = true
               /\ name f = get_column_display_name (column f)
               /\ (visible_on_add f = true
                   <-> eq_nocase (column f) (lit "value")
                       \/ eq_nocase (column f) (lit "rating")))
       (fields (entry_of capacitors_spec)).
Proof.
  split; [vm_compute; reflexivity|].
  apply (entry_field_flags capacitors_spec (entry_of capacitors_spec)).
  vm_compute; reflexivity.
Defined.

(** X23. The properties of an entry hold nothing but columns of the table:
    every value is a column, filed under its own name or, for a column that
    is "value" when case is ignored, under "Value"; and every column of the
    table has its key in the mapping. *)
Theorem entry_property_keys :
  forall (t : TableSpec) (e : LibraryEntry),
    library_entry t = Returned (Some e) ->
    (forall k v, properties e !! k = Some v ->
                 v ∈ columns t /\ property_key v = k)
    /\ (forall c, c ∈ columns t -> is_Some (properties e !! property_key c)).
Proof.
  intros t e He. apply library_entry_Some in He as (-> & _ & _). split.
  - intros k v Hkv. rewrite entry_properties_lookup in Hkv.
    apply last_Some_elem_of, list_elem_of_In, filter_In in Hkv as [Hin Hk].
    apply bool_decide_eq_true in Hk.
    split; [apply list_elem_of_In; exact Hin|exact Hk].
  - intros c Hin. rewrite entry_properties_lookup. apply last_is_Some.
    intros Hnil.
    assert (In c (List.filter (fun c0 => bool_decide (property_key c0 = property_key c))
                    (columns t))) as Hc.
    { apply filter_In. split; [apply list_elem_of_In; exact Hin|].
      apply bool_decide_eq_true. reflexivity. }
    rewrite Hnil in Hc. exact Hc.
Qed.

Lemma entry_property_keys_witness :
  library_entry two_values_spec = Returned (Some (entry_of two_values_spec))
  /\ (forall k v, properties (entry_of two_values_spec) !! k = Some v ->
                  v ∈ columns two_values_spec /\ property_key v = k)
  /\ (forall c, c ∈ columns two_values_spec ->
                is_Some (properties (entry_of two_values_spec) !! property_key c)).
Proof.
  split; [vm_compute; reflexivity|].
  apply (entry_property_keys two_values_spec (entry_of two_values_spec)).
  vm_compute; reflexivity.
Defined.

(** ** Further edge cases of the table builder *)

(** X24. Every table that the table builder returns has at least one
    column, and its name and the names of its columns are as the sanitizer
    gives them: made of the characters of [A-Za-z0-9_], without a digit in
    front. *)
Theorem update_database_tables_sanitized :
  forall (w : World) (tables : list TableSpec),
    update_database w = Returned tables ->
    Forall (fun t =>
              columns t <> []
              /\ sanitized (table_name t)
              /\ Forall sanitized (columns t))
      tables.
Proof.
  intros w tables. apply update_database_Forall. intros f t Ht.
  apply load_file_appends in Ht as (raw_headers & reader & _ & Hne & _ & ->).
  cbn [table_of columns table_name].
  assert (forall x, sanitized (sanitize_sql_name x)) as Hsan.
  { intros x. split; [apply sanitize_sql_name_word_chars|].
    rewrite sanitize_sql_name_unfold. apply sanitize_no_leading_digit. }
  split; [destruct raw_headers; [congruence|discriminate]|].
  split; [apply Hsan|].
  apply List.Forall_forall. intros c Hc.
  apply in_map_iff in Hc as (h & <- & _). apply Hsan.
Qed.

Lemma update_database_tables_sanitized_witness :
  update_database diodes_world = Returned [diodes_spec]
  /\ Forall (fun t =>
               columns t <> []
               /\ sanitized (table_name t)
               /\ Forall sanitized (columns t))
       [diodes_spec].
Proof.
  split; [vm_compute; reflexivity|].
  apply (update_database_tables_sanitized diodes_world).
  vm_compute; reflexivity.
Defined.

Lemma starts_with_app needle post : starts_with needle (needle ++ post) = true.
Proof.
  induction needle as [|c needle IH]; [reflexivity|].
  cbn [app starts_with]. rewrite N.eqb_refl, IH. reflexivity.
Qed.

Lemma contains_app needle pre post :
  contains needle (pre ++ needle ++ post) = true.
Proof.
  induction pre as [|c pre IH].
  - cbn [app]. destruct (needle ++ post) eqn:Happ; cbn [contains];
      rewrite <- Happ, starts_with_app; reflexivity.
  - cbn [app contains]. rewrite IH. apply orb_true_r.
Qed.

(** X25. The lock is recognised by the word "locked" anywhere in the message
    of an [OperationalError], whatever stands before and after it: such an
    error ends the process with status 1. *)
Theorem load_file_locked_anywhere :
  forall (w : World) (f : SourceFile) (raw_headers : list str)
         (reader : list (list str)) (pre post : str),
    content f = Some (raw_headers :: reader) ->
    raw_headers <> [] ->
    sql f (request_of f raw_headers reader)
    = Some (OperationalError (pre ++ lit "locked" ++ post)) ->
    load_file w f = Exited 1.
Proof.
  intros w f raw_headers reader pre post Hc Hne Hsql.
  rewrite (load_file_sql_error _ _ _ _ _ Hc Hne Hsql), contains_app. reflexivity.
Qed.

Lemma load_file_locked_anywhere_witness :
  content locked_csv
  = Some (columns capacitors_spec :: tail (default [] (content capacitors_csv)))
  /\ columns capacitors_spec <> []
  /\ sql locked_csv
       (request_of locked_csv (columns capacitors_spec)
          (tail (default [] (content capacitors_csv))))
     = Some (OperationalError (lit "database is " ++ lit "locked" ++ lit ""))
  /\ load_file locked_world locked_csv = Exited 1.
Proof.
  split; [reflexivity|]. split; [discriminate|]. split; [reflexivity|].
  apply (load_file_locked_anywhere locked_world locked_csv
           (columns capacitors_spec)
           (tail (default [] (content capacitors_csv)))
           (lit "database is ") (lit ""));
    [reflexivity | discriminate | reflexivity].
Defined.

(** X26. When the folder is missing, or its listing holds no file whose name
    ends in [.csv], the table builder returns no table without opening the
    database, and the script writes no descriptor: the answer of
    [sqlite3.connect] plays no part. *)
Theorem update_database_nothing_to_do :
  forall w : World,
    folder_exists w = false
    \/ (listdir_error w = None /\ List.filter is_csv (listdir w) = []) ->
    update_database w = Returned [] /\ main w = Returned None.
Proof.
  intros w Hw.
  assert (update_database w = Returned []) as Hdb.
  { rewrite update_database_unfold.
    destruct Hw as [->|[-> ->]]; [reflexivity|].
    destruct (negb (folder_exists w)); reflexivity. }
  split; [exact Hdb|]. unfold main. rewrite Hdb. reflexivity.
Qed.

Lemma update_database_nothing_to_do_witness :
  (folder_exists no_csv_world = false
   \/ (listdir_error no_csv_world = None
       /\ List.filter is_csv (listdir no_csv_world) = []))
  /\ connect no_csv_world
     = Some (OperationalError (lit "unable to open database file"))
  /\ update_database no_csv_world = Returned []
  /\ main no_csv_world = Returned None.
Proof.
  split; [right; split; reflexivity|]. split; [reflexivity|].
  apply (update_database_nothing_to_do no_csv_world).
  right. split; reflexivity.
Defined.
